(** * Reconnecting WebSocket client: lib/Socket/Client/websocket.js

    A shallow embedding of [WebSocketClient] together with the collaborators
    it talks to (the underlying socket objects, the timer primitives, the
    clock, the event emitter and the per-message callbacks), followed by the
    properties of the connection state machine, the reconnect back-off, the
    outbound queue and the heartbeat monitor.

    Modelling conventions.
    - JavaScript numbers that the class only ever uses as counters or sizes
      are [nat]; delays and timestamps are [Z].  For settings that are
      positive integers below 2^53 the product
      [reconnectDelay * Math.pow(2, k)] is exact in double precision until it
      overflows to [Infinity], where [Math.min] returns the cap as it does
      here, so [Z] arithmetic agrees with the source.
    - [x || d] and [if (x)] follow JavaScript truthiness: [undefined] and [0]
      are falsy.
    - Every call the client makes on a collaborator is appended to a trace,
      in program order.  Listeners and callbacks are opaque: they return
      normally and do not call back into the client.
    - A socket object keeps the handlers [connect] attached to it and may
      deliver events until its close event, whether or not the client still
      holds it; timers fire while pending, in any order.
    - [new WebSocketImpl(url, {headers})] returns a fresh socket object; the
      url and the merged Origin header do not influence the client and are
      left out. *)

From Stdlib Require Import ZArith List String Bool Arith Lia.
Import ListNotations.
Local Open Scope Z_scope.

(** ** Values exchanged with the collaborators *)

Definition Handle := nat.    (* identity of a socket object *)
Definition TimerId := nat.   (* value returned by setTimeout / setInterval *)
Definition Callback := nat.  (* identity of a completion callback *)
Definition Payload := string.

Bind Scope nat_scope with Handle TimerId Callback.

Inductive Err : Type :=
| NotOpen                     (* new Error('WebSocket is not open') *)
| ConnectionTimeout           (* new Error('Connection timeout') *)
| Underlying (msg : string).  (* raised by the underlying socket *)

Inductive Event : Type :=
| EvOpen
| EvMessage (data : Payload)
| EvError (e : Err)
| EvClose (code : Z) (reason : string)
| EvReconnecting (attempts : nat) (delay : Z)
| EvReconnectFailed (attempts : nat)
| EvHeartbeatTimeout.

Inductive TimerKind : Type :=
| TConnectTimeout   (* the setTimeout armed by connect() *)
| TReconnect        (* the setTimeout armed by scheduleReconnect() *)
| THeartbeat.       (* the setInterval armed by startHeartbeat() *)

Record Timer : Type := mkTimer { tid : TimerId; tkind : TimerKind; tdelay : Z }.

Inductive Action : Type :=
| Emit (e : Event)                                  (* this.emit(...) *)
| Invoke (cb : Callback) (err : option Err)         (* cb() / cb(error) *)
| SockNew (h : Handle)                              (* new WebSocketImpl(...) *)
| SockSend (h : Handle) (data : Payload)            (* socket.send(str) *)
| SockClose (h : Handle)                            (* socket.close() *)
| SetTimer (t : TimerId) (k : TimerKind) (ms : Z)   (* setTimeout / setInterval *)
| ClearTimer (t : TimerId).                         (* clearTimeout / clearInterval *)

(** ** Configuration and JavaScript truthiness *)

Record Config : Type := mkConfig {
  cfg_maxReconnectAttempts : option nat;
  cfg_reconnectDelay : option Z;
  cfg_maxReconnectDelay : option Z;
  cfg_maxQueueSize : option nat;
  cfg_queueMessages : bool;
  cfg_connectTimeoutMs : option Z;
  cfg_heartbeatInterval : option Z;
  cfg_heartbeatTimeout : option Z }.

(* [x || d] on numbers *)
Definition orZ (x : option Z) (d : Z) : Z :=
  match x with
  | Some v => if v =? 0 then d else v
  | None => d
  end.

Definition orNat (x : option nat) (d : nat) : nat :=
  match x with
  | Some O => d
  | Some v => v
  | None => d
  end.

(* [if (x)] on an optional number: the value when truthy *)
Definition truthy (x : option Z) : option Z :=
  match x with
  | Some v => if v =? 0 then None else Some v
  | None => None
  end.

(** ** The client object and its run-time environment *)

Record Client : Type := mkClient {
  config : Config;
  socket : option Handle;
  _readyState : Z;
  reconnectAttempts : nat;
  maxReconnectAttempts : nat;
  reconnectDelay : Z;
  maxReconnectDelay : Z;
  reconnectTimer : option TimerId;
  shouldReconnect : bool;
  messageQueue : list (Payload * option Callback);
  maxQueueSize : nat;
  pingInterval : option TimerId;
  pingTimeout : option TimerId;
  lastPongTime : option Z }.

(* [timers]: armed timers that have not fired or been cleared.
   [sockets]: socket objects that may still deliver events, each with the
   connect-timeout timer its [onopen] wrapper clears (lines 108-112).
   [sendFails n h str]: whether the [n]-th call of [send] on the underlying
   socket throws, and with which message. *)
Record Runtime : Type := mkRuntime {
  timers : list Timer;
  nextTimer : TimerId;
  sockets : list (Handle * option TimerId);
  nextHandle : Handle;
  now : Z;
  sends : nat;
  sendFails : nat -> Handle -> Payload -> option string;
  trace : list Action }.

Record State : Type := mkState { this : Client; env : Runtime }.

Definition CONNECTING : Z := 0.
Definition OPEN : Z := 1.
Definition CLOSING : Z := 2.
Definition CLOSED : Z := 3.

Definition set_socket (v : option Handle) (c : Client) : Client :=
  mkClient (config c) v (_readyState c) (reconnectAttempts c) (maxReconnectAttempts c) (reconnectDelay c) (maxReconnectDelay c) (reconnectTimer c) (shouldReconnect c) (messageQueue c) (maxQueueSize c) (pingInterval c) (pingTimeout c) (lastPongTime c).

Definition set_readyState (v : Z) (c : Client) : Client :=
  mkClient (config c) (socket c) v (reconnectAttempts c) (maxReconnectAttempts c) (reconnectDelay c) (maxReconnectDelay c) (reconnectTimer c) (shouldReconnect c) (messageQueue c) (maxQueueSize c) (pingInterval c) (pingTimeout c) (lastPongTime c).

Definition set_reconnectAttempts (v : nat) (c : Client) : Client :=
  mkClient (config c) (socket c) (_readyState c) v (maxReconnectAttempts c) (reconnectDelay c) (maxReconnectDelay c) (reconnectTimer c) (shouldReconnect c) (messageQueue c) (maxQueueSize c) (pingInterval c) (pingTimeout c) (lastPongTime c).

Definition set_reconnectTimer (v : option TimerId) (c : Client) : Client :=
  mkClient (config c) (socket c) (_readyState c) (reconnectAttempts c) (maxReconnectAttempts c) (reconnectDelay c) (maxReconnectDelay c) v (shouldReconnect c) (messageQueue c) (maxQueueSize c) (pingInterval c) (pingTimeout c) (lastPongTime c).

Definition set_shouldReconnect (v : bool) (c : Client) : Client :=
  mkClient (config c) (socket c) (_readyState c) (reconnectAttempts c) (maxReconnectAttempts c) (reconnectDelay c) (maxReconnectDelay c) (reconnectTimer c) v (messageQueue c) (maxQueueSize c) (pingInterval c) (pingTimeout c) (lastPongTime c).

Definition set_messageQueue (v : list (Payload * option Callback)) (c : Client) : Client :=
  mkClient (config c) (socket c) (_readyState c) (reconnectAttempts c) (maxReconnectAttempts c) (reconnectDelay c) (maxReconnectDelay c) (reconnectTimer c) (shouldReconnect c) v (maxQueueSize c) (pingInterval c) (pingTimeout c) (lastPongTime c).

Definition set_pingInterval (v : option TimerId) (c : Client) : Client :=
  mkClient (config c) (socket c) (_readyState c) (reconnectAttempts c) (maxReconnectAttempts c) (reconnectDelay c) (maxReconnectDelay c) (reconnectTimer c) (shouldReconnect c) (messageQueue c) (maxQueueSize c) v (pingTimeout c) (lastPongTime c).

Definition set_pingTimeout (v : option TimerId) (c : Client) : Client :=
  mkClient (config c) (socket c) (_readyState c) (reconnectAttempts c) (maxReconnectAttempts c) (reconnectDelay c) (maxReconnectDelay c) (reconnectTimer c) (shouldReconnect c) (messageQueue c) (maxQueueSize c) (pingInterval c) v (lastPongTime c).

Definition set_lastPongTime (v : option Z) (c : Client) : Client :=
  mkClient (config c) (socket c) (_readyState c) (reconnectAttempts c) (maxReconnectAttempts c) (reconnectDelay c) (maxReconnectDelay c) (reconnectTimer c) (shouldReconnect c) (messageQueue c) (maxQueueSize c) (pingInterval c) (pingTimeout c) v.

Definition set_timers (v : list Timer) (r : Runtime) : Runtime :=
  mkRuntime v (nextTimer r) (sockets r) (nextHandle r) (now r) (sends r) (sendFails r) (trace r).

Definition set_nextTimer (v : TimerId) (r : Runtime) : Runtime :=
  mkRuntime (timers r) v (sockets r) (nextHandle r) (now r) (sends r) (sendFails r) (trace r).

Definition set_sockets (v : list (Handle * option TimerId)) (r : Runtime) : Runtime :=
  mkRuntime (timers r) (nextTimer r) v (nextHandle r) (now r) (sends r) (sendFails r) (trace r).

Definition set_nextHandle (v : Handle) (r : Runtime) : Runtime :=
  mkRuntime (timers r) (nextTimer r) (sockets r) v (now r) (sends r) (sendFails r) (trace r).

Definition set_now (v : Z) (r : Runtime) : Runtime :=
  mkRuntime (timers r) (nextTimer r) (sockets r) (nextHandle r) v (sends r) (sendFails r) (trace r).

Definition set_sends (v : nat) (r : Runtime) : Runtime :=
  mkRuntime (timers r) (nextTimer r) (sockets r) (nextHandle r) (now r) v (sendFails r) (trace r).

Definition set_trace (v : list Action) (r : Runtime) : Runtime :=
  mkRuntime (timers r) (nextTimer r) (sockets r) (nextHandle r) (now r) (sends r) (sendFails r) v.

Definition upd_this (f : Client -> Client) (s : State) : State :=
  mkState (f (this s)) (env s).

Definition upd_env (f : Runtime -> Runtime) (s : State) : State :=
  mkState (this s) (f (env s)).

(** ** Collaborator primitives *)

Definition log (a : Action) (s : State) : State :=
  upd_env (fun r => set_trace (trace r ++ [a]) r) s.

Definition emit (e : Event) (s : State) : State := log (Emit e) s.

(* [if (cb) cb(err)] *)
Definition invoke (cb : option Callback) (err : option Err) (s : State) : State :=
  match cb with
  | Some c => log (Invoke c err) s
  | None => s
  end.

Definition remove_timer (t : TimerId) (l : list Timer) : list Timer :=
  filter (fun x => negb (Nat.eqb (tid x) t)) l.

Definition find_timer (t : TimerId) (l : list Timer) : option Timer :=
  find (fun x => Nat.eqb (tid x) t) l.

(* setTimeout / setInterval: a fresh identifier, the timer becomes pending *)
Definition setTimer (k : TimerKind) (ms : Z) (s : State) : TimerId * State :=
  let t := nextTimer (env s) in
  (t, log (SetTimer t k ms)
        (upd_env (fun r => set_timers (timers r ++ [mkTimer t k ms])
                             (set_nextTimer (S t) r)) s)).

(* clearTimeout / clearInterval *)
Definition clearTimer (t : TimerId) (s : State) : State :=
  log (ClearTimer t)
    (upd_env (fun r => set_timers (remove_timer t (timers r)) r) s).

(* a one-shot timer leaves the pending set when its callback starts *)
Definition expire (t : TimerId) (s : State) : State :=
  upd_env (fun r => set_timers (remove_timer t (timers r)) r) s.

Definition find_socket (h : Handle) (l : list (Handle * option TimerId))
  : option (option TimerId) :=
  match find (fun x => Nat.eqb (fst x) h) l with
  | Some x => Some (snd x)
  | None => None
  end.

Definition drop_socket (h : Handle) (s : State) : State :=
  upd_env (fun r => set_sockets
                      (filter (fun x => negb (Nat.eqb (fst x) h)) (sockets r)) r) s.

(* new WebSocketImpl(...) followed by the four handler assignments *)
Definition newSocket (s : State) : Handle * State :=
  let h := nextHandle (env s) in
  (h, log (SockNew h)
        (upd_env (fun r => set_sockets (sockets r ++ [(h, None)])
                             (set_nextHandle (S h) r)) s)).

(* lines 108-112: onopen is replaced by a wrapper that first clears [t] *)
Definition wrapOnOpen (h : Handle) (t : TimerId) (s : State) : State :=
  upd_env (fun r => set_sockets
                      (map (fun x => if Nat.eqb (fst x) h then (h, Some t) else x)
                           (sockets r)) r) s.

(** ** The class *)

Definition constructor (cfg : Config)
    (net : nat -> Handle -> Payload -> option string) : State :=
  mkState
    (mkClient cfg None 3 0%nat
       (orNat (cfg_maxReconnectAttempts cfg) 5%nat)
       (orZ (cfg_reconnectDelay cfg) 1000)
       (orZ (cfg_maxReconnectDelay cfg) 30000)
       None false []
       (orNat (cfg_maxQueueSize cfg) 100%nat)
       None None None)
    (mkRuntime [] 1%nat [] 0%nat 0 0%nat net []).

Definition isOpen (s : State) : bool := _readyState (this s) =? 1.

Definition isClosed (s : State) : bool :=
  match socket (this s) with
  | None => true
  | Some _ => _readyState (this s) =? 3
  end.

Definition isClosing (s : State) : bool :=
  match socket (this s) with
  | None => true
  | Some _ => _readyState (this s) =? 2
  end.

Definition isConnecting (s : State) : bool := _readyState (this s) =? 0.

Definition clearReconnectTimer (s : State) : State :=
  match reconnectTimer (this s) with
  | Some t => upd_this (set_reconnectTimer None) (clearTimer t s)
  | None => s
  end.

Definition stopHeartbeat (s : State) : State :=
  let s1 := match pingInterval (this s) with
            | Some t => upd_this (set_pingInterval None) (clearTimer t s)
            | None => s
            end in
  match pingTimeout (this s1) with
  | Some t => upd_this (set_pingTimeout None) (clearTimer t s1)
  | None => s1
  end.

Definition connect (s : State) : State :=
  match socket (this s) with
  | Some _ => s
  | None =>
      let s1 := upd_this (set_shouldReconnect true) s in
      let s2 := upd_this (set_readyState 0) s1 in
      let (h, s3) := newSocket s2 in
      let s4 := upd_this (set_socket (Some h)) s3 in
      match truthy (cfg_connectTimeoutMs (config (this s4))) with
      | Some ms => let (t, s5) := setTimer TConnectTimeout ms s4 in
                   wrapOnOpen h t s5
      | None => s4
      end
  end.

Definition close (s : State) : State :=
  match socket (this s) with
  | None => s
  | Some h =>
      let s1 := upd_this (set_shouldReconnect false) s in
      let s2 := clearReconnectTimer s1 in
      let s3 := stopHeartbeat s2 in
      let s4 := upd_this (set_readyState 2) s3 in
      let s5 := log (SockClose h) s4 in
      let s6 := upd_this (set_socket None) s5 in
      upd_this (set_readyState 3) s6
  end.

Definition send (str : Payload) (cb : option Callback) (s : State) : bool * State :=
  match socket (this s), _readyState (this s) =? 1 with
  | Some h, true =>
      let s1 := log (SockSend h str)
                  (upd_env (fun r => set_sends (S (sends r)) r) s) in
      match sendFails (env s) (sends (env s)) h str with
      | None => (true, invoke cb None s1)
      | Some msg => (false, invoke cb (Some (Underlying msg)) s1)
      end
  | _, _ =>
      if cfg_queueMessages (config (this s))
         && (List.length (messageQueue (this s)) <? maxQueueSize (this s))%nat
      then (true, upd_this (fun c => set_messageQueue (messageQueue c ++ [(str, cb)]) c) s)
      else (false, invoke cb (Some NotOpen) s)
  end.

Definition scheduleReconnect (s : State) : State :=
  let s1 := clearReconnectTimer s in
  let delay := Z.min (reconnectDelay (this s1) * 2 ^ Z.of_nat (reconnectAttempts (this s1)))
                     (maxReconnectDelay (this s1)) in
  let s2 := upd_this (fun c => set_reconnectAttempts (S (reconnectAttempts c)) c) s1 in
  let s3 := emit (EvReconnecting (reconnectAttempts (this s2)) delay) s2 in
  let (t, s4) := setTimer TReconnect delay s3 in
  upd_this (set_reconnectTimer (Some t)) s4.

(* The loop of lines 174-177; [None] when [fuel] iterations do not finish it. *)
Fixpoint flushMessageQueue (fuel : nat) (s : State) : option State :=
  match messageQueue (this s) with
  | [] => Some s
  | (data, callback) :: rest =>
      if _readyState (this s) =? 1 then
        match fuel with
        | O => None
        | S fuel' =>
            flushMessageQueue fuel'
              (snd (send data callback (upd_this (set_messageQueue rest) s)))
        end
      else Some s
  end.

Definition startHeartbeat (s : State) : State :=
  match truthy (cfg_heartbeatInterval (config (this s))) with
  | None => s
  | Some ms =>
      let s1 := stopHeartbeat s in
      let s2 := upd_this (set_lastPongTime (Some (now (env s1)))) s1 in
      let (t, s3) := setTimer THeartbeat ms s2 in
      upd_this (set_pingInterval (Some t)) s3
  end.

Definition getConnectionStats (s : State) : Z * nat * nat * option Z * bool :=
  (_readyState (this s), reconnectAttempts (this s),
   List.length (messageQueue (this s)), lastPongTime (this s),
   match truthy (lastPongTime (this s)) with
   | Some t => now (env s) - t <? 60000
   | None => false
   end).

Definition resetReconnectAttempts (s : State) : State :=
  upd_this (set_reconnectAttempts 0%nat) s.

(** ** Handlers attached by [connect] and timer callbacks *)

(* How a handler or timer callback ends: it returns, it dies on an uncaught
   TypeError (dereferencing a null [this.socket]), or the model ran out of
   loop iterations. *)
Inductive Outcome : Type :=
| Returned (s : State)
| Threw (s : State)
| OutOfFuel.

(* lines 70-76 *)
Definition onopen (fuel : nat) (s : State) : Outcome :=
  let s1 := upd_this (set_readyState 1) s in
  let s2 := upd_this (set_reconnectAttempts 0%nat) s1 in
  let s3 := emit EvOpen s2 in
  match flushMessageQueue fuel s3 with
  | Some s4 => Returned (startHeartbeat s4)
  | None => OutOfFuel
  end.

(* lines 78-81 *)
Definition onmessage (data : Payload) (s : State) : State :=
  let s1 := upd_this (set_lastPongTime (Some (now (env s)))) s in
  emit (EvMessage data) s1.

(* lines 83-85 *)
Definition onerror (msg : string) (s : State) : State :=
  emit (EvError (Underlying msg)) s.

(* lines 87-98 *)
Definition onclose (code : Z) (reason : string) (s : State) : State :=
  let s1 := upd_this (set_readyState 3) s in
  let s2 := stopHeartbeat s1 in
  let s3 := emit (EvClose code reason) s2 in
  let s4 := upd_this (set_socket None) s3 in
  if shouldReconnect (this s4)
     && (reconnectAttempts (this s4) <? maxReconnectAttempts (this s4))%nat
  then scheduleReconnect s4
  else if (maxReconnectAttempts (this s4) <=? reconnectAttempts (this s4))%nat
       then emit (EvReconnectFailed (reconnectAttempts (this s4))) s4
       else s4.

(* lines 101-106: the callback of the connect-timeout timer *)
Definition connectTimeoutFired (s : State) : State :=
  if _readyState (this s) =? 0
  then emit (EvError ConnectionTimeout) (close s)
  else s.

(* lines 186-195: the callback of the heartbeat interval *)
Definition heartbeatTick (s : State) : Outcome :=
  if _readyState (this s) =? 1 then
    let timeSinceLastPong :=
      now (env s) - match lastPongTime (this s) with Some t => t | None => 0 end in
    if timeSinceLastPong >? orZ (cfg_heartbeatTimeout (config (this s))) 30000 then
      let s1 := emit EvHeartbeatTimeout s in
      match socket (this s1) with
      | Some h => Returned (log (SockClose h) s1)
      | None => Threw s1
      end
    else Returned s
  else Returned s.

(** ** The event loop *)

Inductive Input : Type :=
| Connect
| Close
| Send (str : Payload) (cb : option Callback)
| ResetReconnectAttempts
| SocketOpen (h : Handle)
| SocketMessage (h : Handle) (data : Payload)
| SocketError (h : Handle) (msg : string)
| SocketClose (h : Handle) (code : Z) (reason : string)
| TimerFires (t : TimerId)
| Elapse (ms : N).

(* A socket delivers events until its close event; a timer fires only while
   pending. *)
Definition enabled (i : Input) (s : State) : bool :=
  match i with
  | SocketOpen h | SocketMessage h _ | SocketError h _ | SocketClose h _ _ =>
      match find_socket h (sockets (env s)) with Some _ => true | None => false end
  | TimerFires t =>
      match find_timer t (timers (env s)) with Some _ => true | None => false end
  | _ => true
  end.

Definition handle (fuel : nat) (i : Input) (s : State) : Outcome :=
  match i with
  | Connect => Returned (connect s)
  | Close => Returned (close s)
  | Send str cb => Returned (snd (send str cb s))
  | ResetReconnectAttempts => Returned (resetReconnectAttempts s)
  | SocketOpen h =>
      match find_socket h (sockets (env s)) with
      | Some (Some t) => onopen fuel (clearTimer t s)
      | _ => onopen fuel s
      end
  | SocketMessage _ data => Returned (onmessage data s)
  | SocketError _ msg => Returned (onerror msg s)
  | SocketClose h code reason => Returned (onclose code reason (drop_socket h s))
  | TimerFires t =>
      match find_timer t (timers (env s)) with
      | Some tm =>
          match tkind tm with
          | TConnectTimeout => Returned (connectTimeoutFired (expire t s))
          | TReconnect => Returned (connect (expire t s))
          | THeartbeat => heartbeatTick s
          end
      | None => Returned s
      end
  | Elapse ms => Returned (upd_env (fun r => set_now (now r + Z.of_N ms) r) s)
  end.

(* One turn of the event loop.  An uncaught exception ends the turn and the
   loop goes on from the state the handler left. *)
Definition step (fuel : nat) (i : Input) (s : State) : option State :=
  if enabled i s then
    match handle fuel i s with
    | Returned s' => Some s'
    | Threw s' => Some s'
    | OutOfFuel => None
    end
  else None.

Fixpoint exec (fuel : nat) (l : list Input) (s : State) : option State :=
  match l with
  | [] => Some s
  | i :: l' =>
      match step fuel i s with
      | Some s' => exec fuel l' s'
      | None => None
      end
  end.

(* States at which the client can be observed between two turns. *)
Inductive reachable (cfg : Config) (net : nat -> Handle -> Payload -> option string)
  : State -> Prop :=
| reach_init : reachable cfg net (constructor cfg net)
| reach_step : forall s fuel i s',
    reachable cfg net s -> step fuel i s = Some s' -> reachable cfg net s'.

Definition defaults : Config :=
  mkConfig None None None None false None None None.

Definition net_ok : nat -> Handle -> Payload -> option string :=
  fun _ _ _ => None.

(* The reconnecting(attempt, delay) notifications of a trace, oldest first. *)
Fixpoint reconnecting_events (tr : list Action) : list (nat * Z) :=
  match tr with
  | [] => []
  | Emit (EvReconnecting n d) :: tr' => (n, d) :: reconnecting_events tr'
  | _ :: tr' => reconnecting_events tr'
  end.

(* What the drain loop does with a queue [q] on a handle [h] that stays
   open, the first underlying send being call number [n]. *)
Definition callback_action (cb : option Callback) (res : option string) : list Action :=
  match cb with
  | Some c => [Invoke c (option_map Underlying res)]
  | None => []
  end.

Fixpoint drain_actions (net : nat -> Handle -> Payload -> option string)
    (n : nat) (h : Handle) (q : list (Payload * option Callback)) : list Action :=
  match q with
  | [] => []
  | (data, callback) :: q' =>
      SockSend h data :: callback_action callback (net n h data)
        ++ drain_actions net (S n) h q'
  end.

(* The payloads handed to underlying sockets, oldest first. *)
Fixpoint sent_payloads (tr : list Action) : list Payload :=
  match tr with
  | [] => []
  | SockSend _ data :: tr' => data :: sent_payloads tr'
  | _ :: tr' => sent_payloads tr'
  end.

(* Callback invocations of a trace, oldest first. *)
Fixpoint invocations (tr : list Action) : list (Callback * option Err) :=
  match tr with
  | [] => []
  | Invoke c e :: tr' => (c, e) :: invocations tr'
  | _ :: tr' => invocations tr'
  end.

(* Number of heartbeat-timeout notifications in a trace. *)
Fixpoint heartbeat_timeouts (tr : list Action) : nat :=
  match tr with
  | [] => O
  | Emit EvHeartbeatTimeout :: tr' => S (heartbeat_timeouts tr')
  | _ :: tr' => heartbeat_timeouts tr'
  end.

(* Classifiers of trace entries. *)
Definition is_connect (a : Action) : bool :=
  match a with SockNew _ => true | _ => false end.

Definition is_schedule (a : Action) : bool :=
  match a with
  | Emit (EvReconnecting _ _) | SetTimer _ TReconnect _ => true
  | _ => false
  end.

Definition is_reconnect_failed (a : Action) : bool :=
  match a with Emit (EvReconnectFailed _) => true | _ => false end.

(* Everything except the traffic of [send]. *)
Definition is_lifecycle (a : Action) : bool :=
  match a with SockSend _ _ | Invoke _ _ => false | _ => true end.

(* Reconnection is switched off and nothing is left that could restart it. *)
Definition dormant (s : State) : Prop :=
  shouldReconnect (this s) = false /\
  socket (this s) = None /\
  forall tm, In tm (timers (env s)) -> tkind tm <> TReconnect.

(* The attempt limit is reached and no reconnect is scheduled. *)
Definition exhausted (s : State) : Prop :=
  (maxReconnectAttempts (this s) <= reconnectAttempts (this s))%nat /\
  forall tm, In tm (timers (env s)) -> tkind tm <> TReconnect.

(* Closed forms of the two "clear if set" idioms. *)
Definition clears (o : option TimerId) : list Action :=
  match o with
  | Some t => [ClearTimer t]
  | None => []
  end.

Definition remove_opt (o : option TimerId) (l : list Timer) : list Timer :=
  match o with
  | Some t => remove_timer t l
  | None => l
  end.

(* The state in which [onclose] decides about reconnecting. *)
Definition closed_base (code : Z) (reason : string) (s : State) : State :=
  mkState
    (set_socket None
       (set_pingTimeout None (set_pingInterval None (set_readyState 3 (this s)))))
    (set_trace (trace (env s) ++ clears (pingInterval (this s))
                  ++ clears (pingTimeout (this s)) ++ [Emit (EvClose code reason)])
       (set_timers (remove_opt (pingTimeout (this s))
                      (remove_opt (pingInterval (this s)) (timers (env s))))
          (env s))).

(* The handle and the ready state as they are paired at rest. *)
Definition handle_inv (s : State) : Prop :=
  (_readyState (this s) = 0 /\ socket (this s) <> None) \/
  _readyState (this s) = 1 \/
  (_readyState (this s) = 3 /\ socket (this s) = None).

(* Among the pending timers, those of kind [k] are exactly the one whose
   identifier is remembered in field [o]. *)
Definition owned (k : TimerKind) (o : option TimerId) (l : list Timer) : Prop :=
  forall tm, In tm l -> (tkind tm = k <-> o = Some (tid tm)).

(* Identifiers handed out so far are below [n]. *)
Definition below (n : TimerId) (o : option TimerId) : Prop :=
  forall t, o = Some t -> (t < n)%nat.

Record Inv (s : State) : Prop := mkInv {
  inv_queue : (List.length (messageQueue (this s)) <= maxQueueSize (this s))%nat;
  inv_handle : handle_inv s;
  inv_reconnect : owned TReconnect (reconnectTimer (this s)) (timers (env s));
  inv_heartbeat : owned THeartbeat (pingInterval (this s)) (timers (env s));
  inv_fresh : forall tm, In tm (timers (env s)) -> (tid tm < nextTimer (env s))%nat;
  inv_rfresh : below (nextTimer (env s)) (reconnectTimer (this s));
  inv_pfresh : below (nextTimer (env s)) (pingInterval (this s));
  inv_ptout : pingTimeout (this s) = None }.

(* The settings copied by the constructor. *)
Definition settings (s : State) : Config * nat * Z * Z * nat :=
  (config (this s), maxReconnectAttempts (this s), reconnectDelay (this s),
   maxReconnectDelay (this s), maxQueueSize (this s)).

(* The socket held by the client delivers its close event. *)
Definition connection_lost (fuel : nat) (code : Z) (reason : string) (s : State)
  : option State :=
  match socket (this s) with
  | Some h => step fuel (SocketClose h code reason) s
  | None => None
  end.

(* One reconnect attempt that fails: the reconnect timer fires and the socket
   created by the resulting connect() closes without having opened. *)
Definition failed_attempt (fuel : nat) (code : Z) (reason : string) (s : State)
  : option State :=
  match reconnectTimer (this s) with
  | Some t =>
      match step fuel (TimerFires t) s with
      | Some s1 => connection_lost fuel code reason s1
      | None => None
      end
  | None => None
  end.

Fixpoint failed_attempts (fuel : nat) (code : Z) (reason : string) (k : nat) (s : State)
  : option State :=
  match k with
  | O => Some s
  | S k' =>
      match failed_attempt fuel code reason s with
      | Some s1 => failed_attempts fuel code reason k' s1
      | None => None
      end
  end.

(* After [k] scheduled attempts out of [m], with the next one pending. *)
Definition retrying (m k : nat) (F : list Action) (s : State) : Prop :=
  Inv s /\
  maxReconnectAttempts (this s) = m /\
  reconnectAttempts (this s) = k /\
  shouldReconnect (this s) = true /\
  socket (this s) = None /\
  (exists t tm, reconnectTimer (this s) = Some t /\
                find_timer t (timers (env s)) = Some tm) /\
  filter is_reconnect_failed (trace (env s)) = F.

Definition keeps_exhaustion (i : Input) : Prop :=
  match i with
  | SocketOpen _ | ResetReconnectAttempts => False
  | _ => True
  end.

(* Number of close events among the inputs of a run. *)
Fixpoint close_events (l : list Input) : nat :=
  match l with
  | [] => O
  | SocketClose _ _ _ :: l' => S (close_events l')
  | _ :: l' => close_events l'
  end.

(** ** Sample configurations and runs *)

Definition queueing : Config :=
  mkConfig None None None (Some 2%nat) true None None None.

Definition with_connect_timeout : Config :=
  mkConfig None None None None false (Some 20000) None None.

Definition with_heartbeat : Config :=
  mkConfig None None None None false None (Some 1000) None.

Definition one_attempt : Config :=
  mkConfig (Some 1%nat) None None None false None None None.

Definition run (l : list Input) (s : State) : State :=
  match exec 0 l s with
  | Some s' => s'
  | None => s
  end.

(* connect() right after close(), then the first socket reports its close
   and the second one opens. *)
Definition reconnect_race : list Input :=
  [Connect; Close; Connect; SocketClose 0 1000 "lost"%string; SocketOpen 1].

(** ** Further notions used below *)

(* A batch of send calls in order, with the value each call returned. *)
Fixpoint send_all (l : list (Payload * option Callback)) (s : State)
  : list bool * State :=
  match l with
  | [] => ([], s)
  | (str, cb) :: l' =>
      let (r, s1) := send str cb s in
      let (rs, s2) := send_all l' s1 in
      (r :: rs, s2)
  end.

(* The isHealthy field of the statistics snapshot. *)
Definition isHealthy (s : State) : bool := snd (getConnectionStats s).

(* The connect-timeout timers remembered by onopen wrappers were handed out
   before now. *)
Definition wrappers_below (s : State) : Prop :=
  forall h t, In (h, Some t) (sockets (env s)) -> (t < nextTimer (env s))%nat.

(* The attempt counter and every reconnecting notification so far respect the
   limits [m] (attempts) and [D] (delay). *)
Definition attempts_within (m : nat) (D : Z) (s : State) : Prop :=
  (reconnectAttempts (this s) <= m)%nat /\
  Forall (fun e : nat * Z => (1 <= fst e <= m)%nat /\ snd e <= D)
         (reconnecting_events (trace (env s))).

(* The delay scheduleReconnect computes in state [s]. *)
Definition next_delay (s : State) : Z :=
  Z.min (reconnectDelay (this s) * 2 ^ Z.of_nat (reconnectAttempts (this s)))
        (maxReconnectDelay (this s)).

(* From [s] to [s']: timer identifiers only grow, every timer pending in
   [s'] was pending in [s] or is new, and so is every connect-timeout timer
   remembered by an onopen wrapper. *)
Definition frame (s s' : State) : Prop :=
  (nextTimer (env s) <= nextTimer (env s'))%nat /\
  (forall tm, In tm (timers (env s')) ->
     In tm (timers (env s)) \/ (nextTimer (env s) <= tid tm)%nat) /\
  (forall h t, In (h, Some t) (sockets (env s')) ->
     In (h, Some t) (sockets (env s)) \/
     (nextTimer (env s) <= t < nextTimer (env s'))%nat).

(** * Properties *)

#[local] Arguments Z.of_nat : simpl never.
#[local] Arguments Z.sub : simpl never.
#[local] Arguments Z.add : simpl never.
#[local] Arguments Z.mul : simpl never.
#[local] Arguments Z.pow : simpl never.
#[local] Arguments Z.min : simpl never.
#[local] Arguments Nat.ltb : simpl never.
#[local] Arguments Nat.leb : simpl never.
#[local] Arguments andb : simpl nomatch.
#[local] Arguments remove_timer : simpl never.
#[local] Arguments find_timer : simpl never.
#[local] Arguments find_socket : simpl never.

(** ** Closed forms of the methods *)

Ltac destruct_state s :=
  destruct s as [[cfg sock rs att maxatt rdel maxdel rtimer srec mq maxq pint ptout lpong]
                 [tms ntimer socks nhandle clock nsends net tr]];
  cbn in *.

Lemma clearReconnectTimer_eq s :
  clearReconnectTimer s =
  mkState (set_reconnectTimer None (this s))
    (set_trace (trace (env s) ++ clears (reconnectTimer (this s)))
       (set_timers (remove_opt (reconnectTimer (this s)) (timers (env s))) (env s))).
Proof.
  destruct_state s. unfold clearReconnectTimer, clearTimer, log, upd_env, upd_this. cbn.
  destruct rtimer; cbn; rewrite ?app_nil_r; reflexivity.
Qed.

Lemma stopHeartbeat_eq s :
  stopHeartbeat s =
  mkState (set_pingTimeout None (set_pingInterval None (this s)))
    (set_trace (trace (env s) ++ clears (pingInterval (this s))
                  ++ clears (pingTimeout (this s)))
       (set_timers (remove_opt (pingTimeout (this s))
                      (remove_opt (pingInterval (this s)) (timers (env s))))
          (env s))).
Proof.
  destruct_state s. unfold stopHeartbeat, clearTimer, log, upd_env, upd_this. cbn.
  destruct pint, ptout; cbn; rewrite <- ?app_assoc, ?app_nil_r; reflexivity.
Qed.

Lemma close_eq s h :
  socket (this s) = Some h ->
  close s =
  mkState
    (set_readyState 3
       (set_socket None
          (set_pingTimeout None
             (set_pingInterval None
                (set_reconnectTimer None (set_shouldReconnect false (this s)))))))
    (set_trace (trace (env s) ++ clears (reconnectTimer (this s))
                  ++ clears (pingInterval (this s))
                  ++ clears (pingTimeout (this s)) ++ [SockClose h])
       (set_timers (remove_opt (pingTimeout (this s))
                      (remove_opt (pingInterval (this s))
                         (remove_opt (reconnectTimer (this s)) (timers (env s)))))
          (env s))).
Proof.
  intros Hh. unfold close. rewrite Hh.
  rewrite stopHeartbeat_eq, clearReconnectTimer_eq.
  unfold log, upd_env, upd_this. cbn. rewrite <- !app_assoc. reflexivity.
Qed.

Lemma close_none s : socket (this s) = None -> close s = s.
Proof. intros Hh. unfold close. rewrite Hh. reflexivity. Qed.

Lemma scheduleReconnect_eq s :
  let d := Z.min (reconnectDelay (this s) * 2 ^ Z.of_nat (reconnectAttempts (this s)))
                 (maxReconnectDelay (this s)) in
  let t := nextTimer (env s) in
  scheduleReconnect s =
  mkState
    (set_reconnectTimer (Some t)
       (set_reconnectAttempts (S (reconnectAttempts (this s))) (this s)))
    (set_trace (trace (env s) ++ clears (reconnectTimer (this s))
                  ++ [Emit (EvReconnecting (S (reconnectAttempts (this s))) d);
                      SetTimer t TReconnect d])
       (set_nextTimer (S t)
          (set_timers (remove_opt (reconnectTimer (this s)) (timers (env s))
                         ++ [mkTimer t TReconnect d])
             (env s)))).
Proof.
  intros d t. subst d t. unfold scheduleReconnect. rewrite clearReconnectTimer_eq.
  unfold setTimer, emit, log, upd_env, upd_this. cbn.
  rewrite <- !app_assoc. reflexivity.
Qed.

Lemma startHeartbeat_eq s :
  startHeartbeat s =
  match truthy (cfg_heartbeatInterval (config (this s))) with
  | None => s
  | Some ms =>
      let t := nextTimer (env s) in
      mkState
        (set_pingInterval (Some t)
           (set_lastPongTime (Some (now (env s)))
              (set_pingTimeout None (this s))))
        (set_trace (trace (env s) ++ clears (pingInterval (this s))
                      ++ clears (pingTimeout (this s))
                      ++ [SetTimer t THeartbeat ms])
           (set_nextTimer (S t)
              (set_timers (remove_opt (pingTimeout (this s))
                             (remove_opt (pingInterval (this s)) (timers (env s)))
                             ++ [mkTimer t THeartbeat ms])
                 (env s))))
  end.
Proof.
  unfold startHeartbeat.
  destruct (truthy (cfg_heartbeatInterval (config (this s)))) as [ms|]; [|reflexivity].
  rewrite stopHeartbeat_eq.
  unfold setTimer, log, upd_env, upd_this. cbn.
  rewrite <- !app_assoc. reflexivity.
Qed.

Lemma onclose_eq code reason s :
  onclose code reason s =
  let b := closed_base code reason s in
  if shouldReconnect (this s)
     && (reconnectAttempts (this s) <? maxReconnectAttempts (this s))%nat
  then scheduleReconnect b
  else if (maxReconnectAttempts (this s) <=? reconnectAttempts (this s))%nat
       then emit (EvReconnectFailed (reconnectAttempts (this s))) b
       else b.
Proof.
  unfold onclose, closed_base. rewrite stopHeartbeat_eq.
  unfold emit, log, upd_env, upd_this. cbn.
  rewrite <- !app_assoc. reflexivity.
Qed.

Lemma connect_eq s :
  socket (this s) = None ->
  let h := nextHandle (env s) in
  let c := set_socket (Some h) (set_readyState 0 (set_shouldReconnect true (this s))) in
  connect s =
  match truthy (cfg_connectTimeoutMs (config (this s))) with
  | Some ms =>
      let t := nextTimer (env s) in
      mkState c
        (set_trace (trace (env s) ++ [SockNew h; SetTimer t TConnectTimeout ms])
           (set_nextTimer (S t)
              (set_timers (timers (env s) ++ [mkTimer t TConnectTimeout ms])
                 (set_nextHandle (S h)
                    (set_sockets
                       (map (fun x => if Nat.eqb (fst x) h then (h, Some t) else x)
                          (sockets (env s) ++ [(h, None)]))
                       (env s))))))
  | None =>
      mkState c
        (set_trace (trace (env s) ++ [SockNew h])
           (set_nextHandle (S h)
              (set_sockets (sockets (env s) ++ [(h, None)]) (env s))))
  end.
Proof.
  intros Hh h c. subst h c. unfold connect. rewrite Hh.
  unfold newSocket, setTimer, wrapOnOpen, log, upd_env, upd_this. cbn.
  destruct (truthy (cfg_connectTimeoutMs (config (this s)))); cbn;
    rewrite <- ?app_assoc; reflexivity.
Qed.

Lemma connect_noop s h : socket (this s) = Some h -> connect s = s.
Proof. intros Hh. unfold connect. rewrite Hh. reflexivity. Qed.

(** ** Shape of the states produced by [send] and the drain loop *)

Ltac break_match :=
  match goal with
  | |- context [match ?x with _ => _ end] => destruct x eqn:?
  | H : context [match ?x with _ => _ end] |- _ => destruct x eqn:?
  end.

(* [send] only touches the queue, the send counter and the trace, and what
   it adds to the trace is send traffic. *)
Lemma send_shape str cb s :
  exists q n tr,
    snd (send str cb s) =
    mkState (set_messageQueue q (this s))
      (set_trace (trace (env s) ++ tr) (set_sends n (env s))) /\
    filter is_lifecycle tr = [] /\
    ((List.length (messageQueue (this s)) <= maxQueueSize (this s))%nat ->
     (List.length q <= maxQueueSize (this s))%nat).
Proof.
  destruct_state s. unfold send, invoke, log, upd_env, upd_this. cbn.
  repeat break_match; cbn.
  all: try (exists mq, (S nsends); eexists; rewrite <- ?app_assoc;
            split; [reflexivity|split; [reflexivity|auto]]).
  all: try (exists mq, nsends, []; rewrite app_nil_r;
            split; [reflexivity|split; [reflexivity|auto]]).
  all: try (exists mq, nsends; eexists;
            split; [reflexivity|split; [reflexivity|auto]]).
  all: exists (mq ++ [(str, cb)]), nsends, []; rewrite app_nil_r;
    (split; [reflexivity|split; [reflexivity|]]);
    intros _; rewrite length_app; cbn;
    repeat match goal with
      | E : (_ && _)%bool = true |- _ => apply andb_true_iff in E; destruct E as [_ E]
      | E : (_ <? _)%nat = true |- _ => apply Nat.ltb_lt in E
      end; lia.
Qed.

Lemma flushMessageQueue_shape fuel : forall s s',
  flushMessageQueue fuel s = Some s' ->
  exists q n tr,
    s' = mkState (set_messageQueue q (this s))
           (set_trace (trace (env s) ++ tr) (set_sends n (env s))) /\
    filter is_lifecycle tr = [] /\
    ((List.length (messageQueue (this s)) <= maxQueueSize (this s))%nat ->
     (List.length q <= maxQueueSize (this s))%nat).
Proof.
  assert (Hrefl : forall s : State, exists q n tr,
            s = mkState (set_messageQueue q (this s))
                  (set_trace (trace (env s) ++ tr) (set_sends n (env s))) /\
            filter is_lifecycle tr = [] /\
            ((List.length (messageQueue (this s)) <= maxQueueSize (this s))%nat ->
             (List.length q <= maxQueueSize (this s))%nat)).
  { intros s. destruct_state s. exists mq, nsends, []. rewrite app_nil_r.
    split; [reflexivity|split; [reflexivity|auto]]. }
  induction fuel as [|fuel IH]; intros s s' H; cbn in H.
  - destruct (messageQueue (this s)) as [|[data callback] rest] eqn:Hq.
    + injection H as <-. rewrite <- Hq. apply Hrefl.
    + destruct (_readyState (this s) =? 1); [discriminate|].
      injection H as <-. rewrite <- Hq. apply Hrefl.
  - destruct (messageQueue (this s)) as [|[data callback] rest] eqn:Hq.
    + injection H as <-. rewrite <- Hq. apply Hrefl.
    + destruct (_readyState (this s) =? 1).
      * apply IH in H. destruct H as (q & n & tr & -> & Ft & Hb).
        destruct (send_shape data callback (upd_this (set_messageQueue rest) s))
          as (q1 & n1 & tr1 & E1 & Ft1 & Hb1).
        rewrite E1 in *. cbn in *.
        exists q, n, (tr1 ++ tr). split; [|split].
        -- rewrite app_assoc. reflexivity.
        -- rewrite filter_app, Ft, Ft1. reflexivity.
        -- intros Hle. apply Hb, Hb1. lia.
      * injection H as <-. rewrite <- Hq. apply Hrefl.
Qed.

Lemma filter_lifecycle_nil (f : Action -> bool) tr :
  (forall a, f a = true -> is_lifecycle a = true) ->
  filter is_lifecycle tr = [] -> filter f tr = [].
Proof.
  intros Hf. induction tr as [|a tr IH]; [reflexivity|]. cbn.
  destruct (is_lifecycle a) eqn:E; [discriminate|].
  intros H. destruct (f a) eqn:Ef.
  - apply Hf in Ef. congruence.
  - apply IH, H.
Qed.

Lemma is_connect_lifecycle a : is_connect a = true -> is_lifecycle a = true.
Proof. destruct a; cbn; congruence. Qed.

Lemma is_schedule_lifecycle a : is_schedule a = true -> is_lifecycle a = true.
Proof. destruct a; cbn; congruence. Qed.

Lemma is_reconnect_failed_lifecycle a :
  is_reconnect_failed a = true -> is_lifecycle a = true.
Proof. destruct a; cbn; congruence. Qed.

(* The state in which an open handler returns. *)
Lemma onopen_result fuel s s' :
  onopen fuel s = Returned s' ->
  exists q n tr,
    s' = startHeartbeat
           (mkState
              (set_messageQueue q
                 (set_reconnectAttempts 0 (set_readyState 1 (this s))))
              (set_trace (trace (env s) ++ Emit EvOpen :: tr)
                 (set_sends n (env s)))) /\
    filter is_lifecycle tr = [] /\
    ((List.length (messageQueue (this s)) <= maxQueueSize (this s))%nat ->
     (List.length q <= maxQueueSize (this s))%nat).
Proof.
  unfold onopen. intros H.
  destruct (flushMessageQueue fuel _) as [s4|] eqn:Hf; [|discriminate].
  injection H as <-.
  apply flushMessageQueue_shape in Hf. destruct Hf as (q & n & tr & -> & Ft & Hb).
  exists q, n, tr. split; [|split; [exact Ft|exact Hb]].
  unfold emit, log, upd_env, upd_this. cbn. rewrite <- app_assoc. reflexivity.
Qed.

Lemma onopen_never_throws fuel s s' : onopen fuel s <> Threw s'.
Proof.
  unfold onopen. destruct (flushMessageQueue fuel _); discriminate.
Qed.

(* How [step] dispatches, input by input. *)
Lemma step_SocketOpen fuel h s s' :
  step fuel (SocketOpen h) s = Some s' ->
  exists s0,
    onopen fuel s0 = Returned s' /\
    (s0 = s \/ exists t, s0 = clearTimer t s).
Proof.
  unfold step. destruct (enabled _ s); [|discriminate]. cbn [handle].
  destruct (find_socket h (sockets (env s))) as [[t|]|];
    destruct (onopen fuel _) as [s1|s1|] eqn:Ho; try discriminate;
    try (exfalso; eapply onopen_never_throws; exact Ho);
    intros H; injection H as <-; eexists; (split; [exact Ho|]); eauto.
Qed.

Lemma find_timer_In t l tm :
  find_timer t l = Some tm -> In tm l /\ tid tm = t.
Proof.
  unfold find_timer. intros H. apply find_some in H. destruct H as [H1 H2].
  split; [exact H1|]. apply Nat.eqb_eq, H2.
Qed.

Lemma step_TimerFires fuel t s s' :
  step fuel (TimerFires t) s = Some s' ->
  exists tm,
    In tm (timers (env s)) /\ tid tm = t /\
    match tkind tm with
    | TConnectTimeout =>
        s' = if _readyState (this s) =? 0
             then emit (EvError ConnectionTimeout) (close (expire t s))
             else expire t s
    | TReconnect => s' = connect (expire t s)
    | THeartbeat =>
        s' = s \/
        (_readyState (this s) = 1 /\
         s' = emit EvHeartbeatTimeout s) \/
        (exists h, socket (this s) = Some h /\ _readyState (this s) = 1 /\
                   s' = log (SockClose h) (emit EvHeartbeatTimeout s))
    end.
Proof.
  unfold step. cbn [enabled handle].
  destruct (find_timer t (timers (env s))) as [tm|] eqn:Hf; [|discriminate].
  apply find_timer_In in Hf. destruct Hf as [Hin Ht].
  intros H. exists tm. split; [exact Hin|split; [exact Ht|]].
  destruct (tkind tm).
  - injection H as <-. reflexivity.
  - injection H as <-. reflexivity.
  - unfold heartbeatTick in H.
    destruct (_readyState (this s) =? 1) eqn:E;
      [|injection H as <-; left; reflexivity].
    apply Z.eqb_eq in E.
    destruct (_ >? _); [|injection H as <-; left; reflexivity].
    cbn in H. destruct (socket (this s)) as [h|] eqn:Hs; injection H as <-.
    + right. right. exists h. repeat split. exact E.
    + right. left. split; [exact E|reflexivity].
Qed.

(** ** Invariants of the event loop *)

Lemma In_remove_timer tm t l :
  In tm (remove_timer t l) -> In tm l /\ tid tm <> t.
Proof.
  unfold remove_timer. rewrite filter_In. intros [H1 H2]. split; [exact H1|].
  apply negb_true_iff in H2. apply Nat.eqb_neq in H2. exact H2.
Qed.

Lemma In_remove_opt tm o l :
  In tm (remove_opt o l) -> In tm l /\ o <> Some (tid tm).
Proof.
  destruct o as [t|]; cbn.
  - intros H. apply In_remove_timer in H. destruct H as [H1 H2].
    split; [exact H1|congruence].
  - intros H. split; [exact H|discriminate].
Qed.

Ltac in_split :=
  repeat match goal with
    | H : In _ (_ ++ _) |- _ => apply in_app_or in H; destruct H as [H | H]
    | H : In _ (remove_timer _ _) |- _ =>
        apply In_remove_timer in H; destruct H as [H ?]
    | H : In _ (remove_opt _ _) |- _ =>
        apply In_remove_opt in H; destruct H as [H ?]
    | H : In _ (_ :: _) |- _ => destruct H as [H | H]; [subst|]
    | H : In _ [] |- _ => destruct H
    end.

(* Closes goals about which timers are pending once the state is explicit. *)
Ltac use_hyps :=
  repeat match goal with
    | H : forall tm, In tm ?l -> _, H1 : In ?x ?l |- _ =>
        pose proof (H x H1); clear H
    | H : forall t, ?o = Some t -> _, H1 : ?o = Some ?x |- _ =>
        pose proof (H x H1); clear H
    end.

Ltac inj_hyps :=
  repeat match goal with
    | H : Some ?a = Some ?b |- _ =>
        let E := fresh "E" in assert (E : a = b) by congruence; clear H
    end.

Ltac timers_finish :=
  unfold owned, below in *; cbn in *; intros; in_split; cbn in *;
  try congruence; use_hyps;
  try solve [intuition (first [congruence | lia])];
  try solve [inj_hyps; intuition (first [congruence | lia])];
  try (split; intros; use_hyps;
       first [ solve [intuition (first [congruence | lia])]
             | solve [inj_hyps; intuition (first [congruence | lia])] ]).

Ltac handle_solve :=
  unfold handle_inv; cbn;
  first [ assumption
        | left; split; [reflexivity|discriminate]
        | right; left; reflexivity
        | right; right; split; reflexivity ].

Ltac inv_finish :=
  constructor; cbn; auto; try solve [handle_solve]; try solve [timers_finish].

Lemma constructor_Inv cfg net : Inv (constructor cfg net).
Proof. inv_finish. Qed.

Lemma clearTimer_Inv t s : Inv s -> Inv (clearTimer t s).
Proof.
  intros [Hq Hh Hr Hp Hf Hrf Hpf Hpt]. unfold clearTimer, log, upd_env. inv_finish.
Qed.

Lemma expire_Inv t s : Inv s -> Inv (expire t s).
Proof.
  intros [Hq Hh Hr Hp Hf Hrf Hpf Hpt]. unfold expire, upd_env. inv_finish.
Qed.

Lemma connect_Inv s : Inv s -> Inv (connect s).
Proof.
  intros [Hq Hh Hr Hp Hf Hrf Hpf Hpt].
  destruct (socket (this s)) as [h|] eqn:Hs.
  - rewrite (connect_noop s h Hs). constructor; assumption.
  - rewrite (connect_eq s Hs).
    destruct (truthy (cfg_connectTimeoutMs (config (this s)))); inv_finish.
Qed.

Lemma close_Inv s : Inv s -> Inv (close s).
Proof.
  intros [Hq Hh Hr Hp Hf Hrf Hpf Hpt].
  destruct (socket (this s)) as [h|] eqn:Hs.
  - rewrite (close_eq s h Hs). inv_finish.
  - rewrite (close_none s Hs). constructor; assumption.
Qed.

Lemma emit_Inv e s : Inv s -> Inv (emit e s).
Proof.
  intros [Hq Hh Hr Hp Hf Hrf Hpf Hpt]. unfold emit, log, upd_env. inv_finish.
Qed.

Lemma closed_base_Inv code reason s : Inv s -> Inv (closed_base code reason s).
Proof.
  intros [Hq Hh Hr Hp Hf Hrf Hpf Hpt]. unfold closed_base. inv_finish.
Qed.

Lemma scheduleReconnect_Inv s : Inv s -> Inv (scheduleReconnect s).
Proof.
  intros [Hq Hh Hr Hp Hf Hrf Hpf Hpt]. rewrite scheduleReconnect_eq. cbn. inv_finish.
Qed.

Lemma onclose_Inv code reason s : Inv s -> Inv (onclose code reason s).
Proof.
  intros HI. rewrite onclose_eq. cbn zeta.
  pose proof (closed_base_Inv code reason s HI) as Hb.
  destruct (_ && _).
  - apply scheduleReconnect_Inv, Hb.
  - destruct (_ <=? _)%nat; [apply emit_Inv|]; exact Hb.
Qed.

Lemma onopen_Inv fuel s s' :
  Inv s -> onopen fuel s = Returned s' -> Inv s'.
Proof.
  intros [Hq Hh Hr Hp Hf Hrf Hpf Hpt] H.
  apply onopen_result in H. destruct H as (q & n & tr & -> & _ & Hb).
  specialize (Hb Hq). rewrite startHeartbeat_eq. cbn.
  destruct (truthy (cfg_heartbeatInterval (config (this s)))); inv_finish.
Qed.

Lemma step_Inv fuel i s s' :
  Inv s -> step fuel i s = Some s' -> Inv s'.
Proof.
  intros HI H. destruct i.
  - (* Connect *) injection H as <-. apply connect_Inv, HI.
  - (* Close *) injection H as <-. apply close_Inv, HI.
  - (* Send *)
    injection H as <-. destruct HI as [Hq Hh Hr Hp Hf Hrf Hpf Hpt].
    destruct (send_shape str cb s) as (q & n & tr & E & _ & Hb).
    rewrite E. inv_finish.
  - (* ResetReconnectAttempts *)
    injection H as <-. destruct HI as [Hq Hh Hr Hp Hf Hrf Hpf Hpt].
    unfold resetReconnectAttempts, upd_this. inv_finish.
  - (* SocketOpen *)
    apply step_SocketOpen in H. destruct H as (s0 & Ho & [-> | [t ->]]).
    + eapply onopen_Inv; eassumption.
    + eapply onopen_Inv; [|exact Ho]. apply clearTimer_Inv, HI.
  - (* SocketMessage *)
    unfold step in H. destruct (enabled _ s); [|discriminate].
    injection H as <-. destruct HI as [Hq Hh Hr Hp Hf Hrf Hpf Hpt].
    unfold onmessage, emit, log, upd_env, upd_this. inv_finish.
  - (* SocketError *)
    unfold step in H. destruct (enabled _ s); [|discriminate].
    injection H as <-. apply emit_Inv, HI.
  - (* SocketClose *)
    unfold step in H. destruct (enabled _ s); [|discriminate].
    injection H as <-. apply onclose_Inv.
    destruct HI as [Hq Hh Hr Hp Hf Hrf Hpf Hpt]. unfold drop_socket, upd_env.
    inv_finish.
  - (* TimerFires *)
    apply step_TimerFires in H. destruct H as (tm & Hin & Ht & H).
    destruct (tkind tm).
    + subst s'. destruct (_ =? 0).
      * apply emit_Inv, close_Inv, expire_Inv, HI.
      * apply expire_Inv, HI.
    + subst s'. apply connect_Inv, expire_Inv, HI.
    + destruct H as [-> | [[_ ->] | (h & _ & _ & ->)]].
      * exact HI.
      * apply emit_Inv, HI.
      * apply (emit_Inv (EvHeartbeatTimeout)) in HI.
        destruct HI as [Hq Hh Hr Hp Hf Hrf Hpf Hpt]. unfold log, upd_env.
        inv_finish.
  - (* Elapse *)
    injection H as <-. destruct HI as [Hq Hh Hr Hp Hf Hrf Hpf Hpt]. unfold upd_env.
    inv_finish.
Qed.

Lemma reachable_Inv cfg net s : reachable cfg net s -> Inv s.
Proof.
  induction 1 as [|s fuel i s' _ IH Hstep].
  - apply constructor_Inv.
  - eapply step_Inv; eassumption.
Qed.

(** ** The copied settings are constant *)

Lemma connect_settings s : settings (connect s) = settings s.
Proof.
  destruct (socket (this s)) as [h|] eqn:Hs.
  - rewrite (connect_noop s h Hs). reflexivity.
  - rewrite (connect_eq s Hs).
    destruct (truthy (cfg_connectTimeoutMs (config (this s)))); reflexivity.
Qed.

Lemma close_settings s : settings (close s) = settings s.
Proof.
  destruct (socket (this s)) as [h|] eqn:Hs.
  - rewrite (close_eq s h Hs). reflexivity.
  - rewrite (close_none s Hs). reflexivity.
Qed.

Lemma onclose_settings code reason s : settings (onclose code reason s) = settings s.
Proof.
  rewrite onclose_eq. cbn zeta.
  destruct (_ && _); [rewrite scheduleReconnect_eq; reflexivity|].
  destruct (_ <=? _)%nat; reflexivity.
Qed.

Lemma onopen_settings fuel s s' :
  onopen fuel s = Returned s' -> settings s' = settings s.
Proof.
  intros H. apply onopen_result in H. destruct H as (q & n & tr & -> & _).
  rewrite startHeartbeat_eq. cbn.
  destruct (truthy (cfg_heartbeatInterval (config (this s)))); reflexivity.
Qed.

Lemma step_settings fuel i s s' :
  step fuel i s = Some s' -> settings s' = settings s.
Proof.
  intros H. destruct i.
  - injection H as <-. apply connect_settings.
  - injection H as <-. apply close_settings.
  - injection H as <-.
    destruct (send_shape str cb s) as (q & n & tr & E & _). rewrite E. reflexivity.
  - injection H as <-. reflexivity.
  - apply step_SocketOpen in H. destruct H as (s0 & Ho & [-> | [t ->]]);
      apply onopen_settings in Ho; exact Ho.
  - unfold step in H. destruct (enabled _ s); [|discriminate].
    injection H as <-. reflexivity.
  - unfold step in H. destruct (enabled _ s); [|discriminate].
    injection H as <-. reflexivity.
  - unfold step in H. destruct (enabled _ s); [|discriminate].
    injection H as <-. rewrite onclose_settings. reflexivity.
  - apply step_TimerFires in H. destruct H as (tm & Hin & Ht & H).
    destruct (tkind tm).
    + subst s'. destruct (_ =? 0); [|reflexivity].
      unfold emit, log, upd_env. apply (close_settings (expire t s)).
    + subst s'. apply (connect_settings (expire t s)).
    + destruct H as [-> | [[_ ->] | (h & _ & _ & ->)]]; reflexivity.
  - injection H as <-. reflexivity.
Qed.

Lemma reachable_settings cfg net s :
  reachable cfg net s -> settings s = settings (constructor cfg net).
Proof.
  induction 1 as [|s fuel i s' _ IH Hstep].
  - reflexivity.
  - rewrite (step_settings _ _ _ _ Hstep). exact IH.
Qed.

(** ** Reconnection stays off once it is switched off *)

Ltac trace_finish :=
  cbn; rewrite ?filter_app; cbn; rewrite ?app_nil_r; try reflexivity.

Lemma filter_clears (f : Action -> bool) o :
  (forall t, f (ClearTimer t) = false) -> filter f (clears o) = [].
Proof. intros Hf. destruct o; cbn; rewrite ?Hf; reflexivity. Qed.

Lemma filter_connect_clears o : filter is_connect (clears o) = [].
Proof. apply filter_clears. reflexivity. Qed.

Lemma filter_schedule_clears o : filter is_schedule (clears o) = [].
Proof. apply filter_clears. reflexivity. Qed.

Lemma filter_failed_clears o : filter is_reconnect_failed (clears o) = [].
Proof. apply filter_clears. reflexivity. Qed.

Ltac quiet_finish :=
  cbn; rewrite ?filter_app, ?filter_connect_clears, ?filter_schedule_clears,
         ?filter_failed_clears;
  cbn; rewrite ?app_nil_r; try reflexivity.

Lemma step_dormant fuel i s s' :
  dormant s -> i <> Connect -> step fuel i s = Some s' ->
  dormant s' /\
  filter is_connect (trace (env s')) = filter is_connect (trace (env s)) /\
  filter is_schedule (trace (env s')) = filter is_schedule (trace (env s)).
Proof.
  intros (Hsr & Hso & Hnp) Hi H. unfold dormant. destruct i; try congruence.
  - (* Close *)
    injection H as <-. rewrite (close_none s Hso). repeat split; assumption.
  - (* Send *)
    injection H as <-.
    destruct (send_shape str cb s) as (q & n & tr & E & Ft & _). rewrite E. cbn.
    rewrite !filter_app.
    rewrite (filter_lifecycle_nil is_connect tr is_connect_lifecycle Ft).
    rewrite (filter_lifecycle_nil is_schedule tr is_schedule_lifecycle Ft).
    rewrite !app_nil_r. repeat split; assumption.
  - (* ResetReconnectAttempts *)
    injection H as <-. cbn. repeat split; assumption.
  - (* SocketOpen *)
    apply step_SocketOpen in H. destruct H as (s0 & Ho & Hs0).
    apply onopen_result in Ho. destruct Ho as (q & n & tr & -> & Ft & _).
    pose proof (filter_lifecycle_nil is_connect tr is_connect_lifecycle Ft) as Fc.
    pose proof (filter_lifecycle_nil is_schedule tr is_schedule_lifecycle Ft) as Fs.
    rewrite startHeartbeat_eq. cbn.
    destruct Hs0 as [-> | [t ->]];
      destruct (truthy (cfg_heartbeatInterval _)); cbn;
      rewrite ?filter_app, ?filter_connect_clears, ?filter_schedule_clears; cbn;
      rewrite ?filter_app, ?Fc, ?Fs, ?app_nil_r; cbn; rewrite ?app_nil_r;
      (split; [|split; reflexivity]);
      (split; [assumption|split; [assumption|]]); timers_finish.
  - (* SocketMessage *)
    unfold step in H. destruct (enabled _ s); [|discriminate].
    injection H as <-. unfold onmessage, emit, log, upd_env, upd_this. quiet_finish.
    repeat split; assumption.
  - (* SocketError *)
    unfold step in H. destruct (enabled _ s); [|discriminate].
    injection H as <-. unfold onerror, emit, log, upd_env, upd_this. quiet_finish.
    repeat split; assumption.
  - (* SocketClose *)
    unfold step in H. destruct (enabled _ s); [|discriminate].
    injection H as <-. rewrite onclose_eq. cbn. rewrite Hsr. cbn.
    unfold closed_base, emit, log, upd_env, upd_this.
    destruct (_ <=? _)%nat; quiet_finish;
      (split; [|split; reflexivity]);
      (split; [assumption|split; [reflexivity|]]); timers_finish.
  - (* TimerFires *)
    apply step_TimerFires in H. destruct H as (tm & Hin & Ht & H).
    pose proof (Hnp tm Hin) as Hk.
    destruct (tkind tm); [|congruence|].
    + subst s'. rewrite (close_none (expire t s)) by exact Hso.
      unfold emit, log, expire, upd_env.
      destruct (_ =? 0); quiet_finish;
        (split; [|split; reflexivity]);
        (split; [assumption|split; [assumption|]]); timers_finish.
    + unfold emit, log, upd_env in H.
      destruct H as [-> | [[_ ->] | (h & _ & _ & ->)]]; quiet_finish;
        repeat split; assumption.
  - (* Elapse *)
    injection H as <-. cbn. repeat split; assumption.
Qed.

Lemma exec_dormant fuel : forall l s s',
  dormant s -> Forall (fun i => i <> Connect) l -> exec fuel l s = Some s' ->
  dormant s' /\
  filter is_connect (trace (env s')) = filter is_connect (trace (env s)) /\
  filter is_schedule (trace (env s')) = filter is_schedule (trace (env s)).
Proof.
  induction l as [|i l IH]; intros s s' Hd Hl H; cbn in H.
  - injection H as <-. repeat split; try reflexivity; apply Hd.
  - destruct (step fuel i s) as [s1|] eqn:Hs; [|discriminate].
    inversion Hl as [|? ? Hi Hl']; subst.
    destruct (step_dormant _ _ _ _ Hd Hi Hs) as (Hd1 & Hc1 & Hs1).
    destruct (IH _ _ Hd1 Hl' H) as (Hd2 & Hc2 & Hs2).
    split; [exact Hd2|]. split; congruence.
Qed.

(** ** Nothing is scheduled while the attempt limit is reached *)

Lemma step_exhausted fuel i s s' :
  exhausted s -> keeps_exhaustion i -> step fuel i s = Some s' ->
  exhausted s' /\
  filter is_schedule (trace (env s')) = filter is_schedule (trace (env s)) /\
  (i <> Connect ->
   filter is_connect (trace (env s')) = filter is_connect (trace (env s))).
Proof.
  intros (Hmax & Hnp) Hi H. unfold exhausted. destruct i; try contradiction.
  - (* Connect *)
    injection H as <-.
    destruct (socket (this s)) as [h|] eqn:Hs.
    + rewrite (connect_noop s h Hs). repeat split; assumption.
    + rewrite (connect_eq s Hs).
      destruct (truthy (cfg_connectTimeoutMs (config (this s)))); quiet_finish;
        (split; [|split; [reflexivity|congruence]]);
        (split; [assumption|]); timers_finish.
  - (* Close *)
    injection H as <-.
    destruct (socket (this s)) as [h|] eqn:Hs.
    + rewrite (close_eq s h Hs). quiet_finish.
      (split; [|split; reflexivity]); (split; [assumption|]); timers_finish.
    + rewrite (close_none s Hs). repeat split; assumption.
  - (* Send *)
    injection H as <-.
    destruct (send_shape str cb s) as (q & n & tr & E & Ft & _). rewrite E. cbn.
    rewrite !filter_app.
    rewrite (filter_lifecycle_nil is_connect tr is_connect_lifecycle Ft).
    rewrite (filter_lifecycle_nil is_schedule tr is_schedule_lifecycle Ft).
    rewrite !app_nil_r. repeat split; assumption.
  - (* SocketMessage *)
    unfold step in H. destruct (enabled _ s); [|discriminate].
    injection H as <-. unfold onmessage, emit, log, upd_env, upd_this. quiet_finish.
    repeat split; assumption.
  - (* SocketError *)
    unfold step in H. destruct (enabled _ s); [|discriminate].
    injection H as <-. unfold onerror, emit, log, upd_env, upd_this. quiet_finish.
    repeat split; assumption.
  - (* SocketClose *)
    unfold step in H. destruct (enabled _ s); [|discriminate].
    injection H as <-. rewrite onclose_eq. cbn.
    assert (E1 : (reconnectAttempts (this s) <? maxReconnectAttempts (this s))%nat = false)
      by (apply Nat.ltb_ge; exact Hmax).
    assert (E2 : (maxReconnectAttempts (this s) <=? reconnectAttempts (this s))%nat = true)
      by (apply Nat.leb_le; exact Hmax).
    rewrite E1, E2, andb_false_r.
    unfold closed_base, emit, log, upd_env, upd_this. quiet_finish.
    (split; [|split; reflexivity]); (split; [assumption|]); timers_finish.
  - (* TimerFires *)
    apply step_TimerFires in H. destruct H as (tm & Hin & Ht & H).
    pose proof (Hnp tm Hin) as Hk.
    destruct (tkind tm); [|congruence|].
    + subst s'. destruct (_ =? 0).
      * destruct (socket (this (expire t s))) as [h|] eqn:Hs.
        -- rewrite (close_eq _ h Hs). unfold emit, log, expire, upd_env. quiet_finish.
           (split; [|split; reflexivity]); (split; [assumption|]); timers_finish.
        -- rewrite (close_none _ Hs). unfold emit, log, expire, upd_env. quiet_finish.
           (split; [|split; reflexivity]); (split; [assumption|]); timers_finish.
      * unfold expire, upd_env. cbn.
        (split; [|split; reflexivity]); (split; [assumption|]); timers_finish.
    + unfold emit, log, upd_env in H.
      destruct H as [-> | [[_ ->] | (h & _ & _ & ->)]]; quiet_finish;
        repeat split; assumption.
  - (* Elapse *)
    injection H as <-. cbn. repeat split; assumption.
Qed.

Lemma exec_exhausted fuel : forall l s s',
  exhausted s -> Forall keeps_exhaustion l -> exec fuel l s = Some s' ->
  exhausted s' /\
  filter is_schedule (trace (env s')) = filter is_schedule (trace (env s)) /\
  (Forall (fun i => i <> Connect) l ->
   filter is_connect (trace (env s')) = filter is_connect (trace (env s))).
Proof.
  induction l as [|i l IH]; intros s s' Hd Hl H; cbn in H.
  - injection H as <-. repeat split; try reflexivity; apply Hd.
  - destruct (step fuel i s) as [s1|] eqn:Hs; [|discriminate].
    inversion Hl as [|? ? Hi Hl']; subst.
    destruct (step_exhausted _ _ _ _ Hd Hi Hs) as (Hd1 & Hs1 & Hc1).
    destruct (IH _ _ Hd1 Hl' H) as (Hd2 & Hs2 & Hc2).
    split; [exact Hd2|]. split; [congruence|].
    intros Hnc. inversion Hnc as [|? ? Hni Hnc']; subst.
    rewrite (Hc2 Hnc'). apply Hc1, Hni.
Qed.

(** ** A run of failing reconnect attempts *)

Lemma find_timer_app_fresh t k d l :
  (forall tm, In tm l -> tid tm <> t) ->
  find_timer t (l ++ [mkTimer t k d]) = Some (mkTimer t k d).
Proof.
  unfold find_timer. induction l as [|x l IH]; intros Hl; cbn.
  - rewrite Nat.eqb_refl. reflexivity.
  - destruct (Nat.eqb_spec (tid x) t) as [E|_].
    + exfalso. apply (Hl x); [left; reflexivity|exact E].
    + apply IH. intros tm Hin. apply Hl. right. exact Hin.
Qed.

Lemma find_socket_In h x l :
  In (h, x) l -> find_socket h l <> None.
Proof.
  unfold find_socket. intros Hin.
  destruct (find (fun y => Nat.eqb (fst y) h) l) eqn:Hf; [discriminate|].
  pose proof (find_none _ _ Hf _ Hin) as Hn. cbn in Hn.
  rewrite Nat.eqb_refl in Hn. discriminate.
Qed.

Lemma connect_live s :
  socket (this s) = None ->
  exists h,
    socket (this (connect s)) = Some h /\
    find_socket h (sockets (env (connect s))) <> None.
Proof.
  intros Hs. exists (nextHandle (env s)). rewrite (connect_eq s Hs).
  destruct (truthy (cfg_connectTimeoutMs (config (this s)))) as [ms|]; cbn.
  - split; [reflexivity|].
    apply (find_socket_In _ (Some (nextTimer (env s)))).
    rewrite map_app. cbn. rewrite Nat.eqb_refl.
    apply in_or_app. right. left. reflexivity.
  - split; [reflexivity|].
    apply (find_socket_In _ None). apply in_or_app. right. left. reflexivity.
Qed.

Lemma connection_lost_retry fuel code reason s h m k :
  Inv s -> socket (this s) = Some h ->
  find_socket h (sockets (env s)) <> None ->
  shouldReconnect (this s) = true ->
  maxReconnectAttempts (this s) = m -> reconnectAttempts (this s) = k ->
  (k < m)%nat ->
  exists s',
    connection_lost fuel code reason s = Some s' /\
    retrying m (S k) (filter is_reconnect_failed (trace (env s))) s'.
Proof.
  intros HI Hs Hlive Hsr Hm Hk Hlt.
  unfold connection_lost. rewrite Hs.
  assert (Hstep : step fuel (SocketClose h code reason) s
                  = Some (onclose code reason (drop_socket h s))).
  { unfold step. cbn [enabled handle].
    destruct (find_socket h (sockets (env s))); [reflexivity|congruence]. }
  rewrite Hstep. eexists. split; [reflexivity|].
  pose proof (step_Inv _ _ _ _ HI Hstep) as HI'.
  split; [exact HI'|].
  destruct HI as [Hq Hh Hr Hp Hf Hrf Hpf Hpt].
  rewrite onclose_eq. cbn -[scheduleReconnect closed_base]. rewrite Hsr, Hm, Hk.
  apply Nat.ltb_lt in Hlt. rewrite Hlt. cbn -[scheduleReconnect closed_base].
  rewrite scheduleReconnect_eq. cbn.
  split; [exact Hm|]. split; [congruence|]. split; [exact Hsr|].
  split; [reflexivity|]. split.
  - eexists _, _. split; [reflexivity|].
    apply find_timer_app_fresh. intros tm Hin. in_split.
    apply Hf in Hin. lia.
  - quiet_finish.
Qed.

Lemma connection_lost_final fuel code reason s h k :
  Inv s -> socket (this s) = Some h ->
  find_socket h (sockets (env s)) <> None ->
  reconnectAttempts (this s) = k ->
  (maxReconnectAttempts (this s) <= k)%nat ->
  (forall tm, In tm (timers (env s)) -> tkind tm <> TReconnect) ->
  exists s',
    connection_lost fuel code reason s = Some s' /\
    filter is_reconnect_failed (trace (env s')) =
      filter is_reconnect_failed (trace (env s)) ++ [Emit (EvReconnectFailed k)] /\
    filter is_schedule (trace (env s')) = filter is_schedule (trace (env s)) /\
    filter is_connect (trace (env s')) = filter is_connect (trace (env s)) /\
    socket (this s') = None /\
    _readyState (this s') = CLOSED /\
    exhausted s'.
Proof.
  intros HI Hs Hlive Hk Hmax Hnp.
  unfold connection_lost. rewrite Hs.
  assert (Hstep : step fuel (SocketClose h code reason) s
                  = Some (onclose code reason (drop_socket h s))).
  { unfold step. cbn [enabled handle].
    destruct (find_socket h (sockets (env s))); [reflexivity|congruence]. }
  rewrite Hstep. eexists. split; [reflexivity|].
  rewrite onclose_eq. cbn. rewrite Hk.
  assert (E1 : (k <? maxReconnectAttempts (this s))%nat = false)
    by (apply Nat.ltb_ge; exact Hmax).
  assert (E2 : (maxReconnectAttempts (this s) <=? k)%nat = true)
    by (apply Nat.leb_le; exact Hmax).
  rewrite E1, E2, andb_false_r.
  unfold closed_base, emit, log, upd_env, upd_this, exhausted. quiet_finish.
  repeat split; try reflexivity.
  - rewrite Hk. exact Hmax.
  - timers_finish.
Qed.

Lemma reconnect_timer_fires fuel s m k F :
  retrying m k F s ->
  exists t s1 h,
    reconnectTimer (this s) = Some t /\
    step fuel (TimerFires t) s = Some s1 /\
    Inv s1 /\ socket (this s1) = Some h /\
    find_socket h (sockets (env s1)) <> None /\
    shouldReconnect (this s1) = true /\
    maxReconnectAttempts (this s1) = m /\ reconnectAttempts (this s1) = k /\
    (forall tm, In tm (timers (env s1)) -> tkind tm <> TReconnect) /\
    filter is_reconnect_failed (trace (env s1)) = F.
Proof.
  intros (HI & Hm & Hk & Hsr & Hs & (t & tm & Ht & Hfind) & HF).
  pose proof (find_timer_In _ _ _ Hfind) as [Hin Htid].
  assert (Hkind : tkind tm = TReconnect).
  { apply (inv_reconnect s HI tm Hin). congruence. }
  assert (Hstep : step fuel (TimerFires t) s = Some (connect (expire t s))).
  { unfold step. cbn [enabled handle]. rewrite Hfind, Hkind. reflexivity. }
  destruct (connect_live (expire t s) Hs) as (h & Hh & Hlive).
  exists t, (connect (expire t s)), h.
  split; [exact Ht|]. split; [exact Hstep|].
  split; [exact (step_Inv _ _ _ _ HI Hstep)|].
  split; [exact Hh|]. split; [exact Hlive|].
  pose proof (inv_reconnect s HI) as Hown.
  rewrite (connect_eq (expire t s) Hs).
  destruct (truthy (cfg_connectTimeoutMs _)); cbn; quiet_finish;
    repeat split; try assumption; timers_finish.
Qed.

Lemma failed_attempt_retry fuel code reason s m k F :
  retrying m k F s -> (k < m)%nat ->
  exists s', failed_attempt fuel code reason s = Some s' /\ retrying m (S k) F s'.
Proof.
  intros Hr Hlt.
  destruct (reconnect_timer_fires fuel s m k F Hr)
    as (t & s1 & h & Ht & Hstep & HI1 & Hh & Hlive & Hsr & Hm & Hk & _ & HF).
  unfold failed_attempt. rewrite Ht, Hstep.
  destruct (connection_lost_retry fuel code reason s1 h m k HI1 Hh Hlive Hsr Hm Hk Hlt)
    as (s' & E & Hr').
  exists s'. split; [exact E|]. rewrite HF in Hr'. exact Hr'.
Qed.

Lemma failed_attempt_last fuel code reason s m F :
  retrying m m F s ->
  exists s',
    failed_attempt fuel code reason s = Some s' /\
    filter is_reconnect_failed (trace (env s')) = F ++ [Emit (EvReconnectFailed m)] /\
    socket (this s') = None /\
    _readyState (this s') = CLOSED /\
    exhausted s'.
Proof.
  intros Hr.
  destruct (reconnect_timer_fires fuel s m m F Hr)
    as (t & s1 & h & Ht & Hstep & HI1 & Hh & Hlive & Hsr & Hm & Hk & Hnp & HF).
  unfold failed_attempt. rewrite Ht, Hstep.
  destruct (connection_lost_final fuel code reason s1 h m HI1 Hh Hlive Hk)
    as (s' & E & HF' & _ & _ & Hs' & Hc' & He'); [lia|exact Hnp|].
  exists s'. rewrite HF in HF'.
  split; [exact E|split; [exact HF'|split; [exact Hs'|split; [exact Hc'|exact He']]]].
Qed.

Lemma failed_attempts_retry fuel code reason m F : forall j s k,
  retrying m k F s -> (k + j <= m)%nat ->
  exists s', failed_attempts fuel code reason j s = Some s' /\
             retrying m (k + j) F s'.
Proof.
  induction j as [|j IH]; intros s k Hr Hle; cbn.
  - exists s. split; [reflexivity|]. rewrite Nat.add_0_r. exact Hr.
  - destruct (failed_attempt_retry fuel code reason s m k F Hr) as (s1 & E1 & Hr1);
      [lia|].
    rewrite E1. destruct (IH s1 (S k) Hr1) as (s' & E & Hr'); [lia|].
    exists s'. split; [exact E|].
    replace (k + S j)%nat with (S k + j)%nat by lia. exact Hr'.
Qed.

Lemma failed_attempts_snoc fuel code reason : forall j s,
  failed_attempts fuel code reason (S j) s =
  match failed_attempts fuel code reason j s with
  | Some s1 => failed_attempt fuel code reason s1
  | None => None
  end.
Proof.
  induction j as [|j IH]; intros s.
  - cbn. destruct (failed_attempt fuel code reason s); reflexivity.
  - cbn [failed_attempts] in *.
    destruct (failed_attempt fuel code reason s) as [s1|]; [|reflexivity].
    apply IH.
Qed.

Lemma orNat_pos x d : (0 < d)%nat -> (0 < orNat x d)%nat.
Proof. destruct x as [[|n]|]; cbn; lia. Qed.

(** ** Reconnect back-off *)

(** C1: a call of scheduleReconnect that raises the attempt counter to n
    emits reconnecting(n, d) and then arms the reconnect timer with the same
    delay d = min(reconnectDelay * 2^(n-1), maxReconnectDelay); before that
    it only clears the previous reconnect timer.  With reconnectDelay = 1000
    and maxReconnectDelay = 30000, given explicitly or left to the defaults,
    attempts 1..10 are notified with 1000, 2000, 4000, 8000, 16000 and then
    30000 five times. *)
Theorem scheduleReconnect_backoff :
  (forall s : State,
     let s' := scheduleReconnect s in
     let n := reconnectAttempts (this s') in
     let d := Z.min (reconnectDelay (this s) * 2 ^ (Z.of_nat n - 1))
                    (maxReconnectDelay (this s)) in
     n = S (reconnectAttempts (this s)) /\
     exists pre t,
       trace (env s') =
         trace (env s) ++ pre ++ [Emit (EvReconnecting n d); SetTimer t TReconnect d] /\
       (pre = [] \/ exists t0, reconnectTimer (this s) = Some t0 /\ pre = [ClearTimer t0]) /\
       reconnectTimer (this s') = Some t /\
       In (mkTimer t TReconnect d) (timers (env s'))) /\
  (forall (given_rd given_md : bool) mra mqs qm ct hi ht net,
     let rd := if given_rd then Some 1000 else None in
     let md := if given_md then Some 30000 else None in
     reconnecting_events
       (trace (env (Nat.iter 10 scheduleReconnect
                      (constructor (mkConfig mra rd md mqs qm ct hi ht) net)))) =
     [(1%nat, 1000); (2%nat, 2000); (3%nat, 4000); (4%nat, 8000); (5%nat, 16000);
      (6%nat, 30000); (7%nat, 30000); (8%nat, 30000); (9%nat, 30000); (10%nat, 30000)]).
Proof.
  split.
  - intros s s' n d. subst s' n d.
    unfold scheduleReconnect, clearReconnectTimer.
    destruct (reconnectTimer (this s)) as [t0|] eqn:Ht; cbn;
      (split; [reflexivity|]);
      replace (Z.of_nat (S (reconnectAttempts (this s))) - 1)
        with (Z.of_nat (reconnectAttempts (this s))) by lia.
    + exists [ClearTimer t0]. eexists. repeat split.
      * rewrite <- !app_assoc. reflexivity.
      * right. exists t0. split; reflexivity.
      * apply in_or_app. right. left. reflexivity.
    + exists []. eexists. repeat split.
      * rewrite <- !app_assoc. reflexivity.
      * left. reflexivity.
      * apply in_or_app. right. left. reflexivity.
  - intros [|] [|] mra mqs qm ct hi ht net; vm_compute; reflexivity.
Qed.

(** ** Explicit close and the connect timeout *)

Lemma In_remove_opt_intro tm o l :
  In tm l -> o <> Some (tid tm) -> In tm (remove_opt o l).
Proof.
  destruct o as [t|]; cbn; [|auto]. intros Hin Hne.
  unfold remove_timer. apply filter_In. split; [exact Hin|].
  apply negb_true_iff, Nat.eqb_neq. congruence.
Qed.

Lemma clears_only_clear o a : In a (clears o) -> exists t, a = ClearTimer t.
Proof. destruct o as [t|]; cbn; [|tauto]. intros [<- | []]. eauto. Qed.

(* What close() leaves behind when it had a handle to close. *)
Lemma close_effect s h :
  Inv s -> socket (this s) = Some h ->
  let s' := close s in
  shouldReconnect (this s') = false /\
  reconnectTimer (this s') = None /\
  pingInterval (this s') = None /\
  _readyState (this s') = CLOSED /\
  socket (this s') = None /\
  (exists cl,
     trace (env s') = trace (env s) ++ cl ++ [SockClose h] /\
     forall a, In a cl -> exists t, a = ClearTimer t) /\
  (forall tm, In tm (timers (env s')) <->
              In tm (timers (env s)) /\ tkind tm = TConnectTimeout) /\
  dormant s'.
Proof.
  intros [Hq Hh Hr Hp Hf Hrf Hpf Hpt] Hs s'. subst s'.
  rewrite (close_eq s h Hs). unfold dormant. cbn.
  assert (Hiff : forall tm,
            In tm (remove_opt (pingTimeout (this s))
                     (remove_opt (pingInterval (this s))
                        (remove_opt (reconnectTimer (this s)) (timers (env s))))) <->
            In tm (timers (env s)) /\ tkind tm = TConnectTimeout).
  { intros tm. split.
    - intros Hin. in_split. split; [exact Hin|].
      pose proof (Hr tm Hin) as Hr1. pose proof (Hp tm Hin) as Hp1.
      destruct (tkind tm); [reflexivity| |]; exfalso; intuition congruence.
    - intros [Hin Hk].
      pose proof (Hr tm Hin) as Hr1. pose proof (Hp tm Hin) as Hp1.
      rewrite Hk in Hr1, Hp1.
      apply In_remove_opt_intro; [|rewrite Hpt; discriminate].
      apply In_remove_opt_intro; [|intros E; apply Hp1 in E; discriminate].
      apply In_remove_opt_intro; [exact Hin|].
      intros E; apply Hr1 in E; discriminate. }
  do 5 (split; [reflexivity|]). split; [|split; [exact Hiff|]].
  - eexists. split.
    + rewrite (app_assoc (clears (pingInterval (this s)))).
      rewrite (app_assoc (clears (reconnectTimer (this s)))). reflexivity.
    + intros a Hin. in_split; eapply clears_only_clear; eassumption.
  - split; [reflexivity|]. split; [reflexivity|].
    intros tm Hin. apply Hiff in Hin. destruct Hin as [_ Hk]. congruence.
Qed.


(** C10: when a connect-timeout timer fires and finds the state CONNECTING,
    its callback runs close() on the held handle and then emits the
    connection-timeout error; it ends with shouldReconnect false, no handle
    and the state CLOSED.  From there, until the application calls
    connect(), shouldReconnect stays false, no handle is held (isClosed is
    true), no reconnect is scheduled and no socket is created, whatever
    socket events and timers follow. *)
Theorem connect_timeout_disables_reconnect cfg net s t tm fuel :
  reachable cfg net s ->
  find_timer t (timers (env s)) = Some tm ->
  tkind tm = TConnectTimeout ->
  _readyState (this s) = CONNECTING ->
  exists h s',
    socket (this s) = Some h /\
    handle fuel (TimerFires t) s = Returned s' /\
    s' = emit (EvError ConnectionTimeout) (close (expire t s)) /\
    (exists cl,
       trace (env s') =
         trace (env s) ++ cl ++ [SockClose h; Emit (EvError ConnectionTimeout)] /\
       forall a, In a cl -> exists t0, a = ClearTimer t0) /\
    shouldReconnect (this s') = false /\
    socket (this s') = None /\
    _readyState (this s') = CLOSED /\
    forall fuel' l s2,
      Forall (fun i => i <> Connect) l -> exec fuel' l s' = Some s2 ->
      shouldReconnect (this s2) = false /\
      socket (this s2) = None /\
      isClosed s2 = true /\
      (forall tm2, In tm2 (timers (env s2)) -> tkind tm2 <> TReconnect) /\
      filter is_schedule (trace (env s2)) = filter is_schedule (trace (env s')) /\
      filter is_connect (trace (env s2)) = filter is_connect (trace (env s')).
Proof.
  intros Hr Hfind Hk Hst. pose proof (reachable_Inv _ _ _ Hr) as HI.
  destruct (socket (this s)) as [h|] eqn:Hs.
  2:{ destruct (inv_handle s HI) as [[_ Hne] | [H1 | [H3 _]]];
        unfold CONNECTING in Hst; congruence. }
  pose proof (expire_Inv t s HI) as HIe.
  assert (Hse : socket (this (expire t s)) = Some h) by exact Hs.
  destruct (close_effect (expire t s) h HIe Hse)
    as (H1 & H2 & H3 & H4 & H5 & (cl & Htr & Hcl) & H7 & (D1 & D2 & D3)).
  exists h, (emit (EvError ConnectionTimeout) (close (expire t s))).
  split; [reflexivity|]. split.
  { cbn [handle]. rewrite Hfind, Hk. unfold connectTimeoutFired.
    change (_readyState (this (expire t s))) with (_readyState (this s)).
    rewrite Hst. reflexivity. }
  split; [reflexivity|]. split.
  { exists cl. split; [|exact Hcl]. unfold emit, log, upd_env. cbn.
    rewrite Htr. cbn. rewrite <- !app_assoc. reflexivity. }
  split; [exact H1|]. split; [exact H5|]. split; [exact H4|].
  intros fuel' l s2 Hl He.
  assert (Hd : dormant (emit (EvError ConnectionTimeout) (close (expire t s)))).
  { split; [exact H1|]. split; [exact H5|]. exact D3. }
  destruct (exec_dormant fuel' l _ s2 Hd Hl He) as ((E1 & E2 & E3) & Hc & Hsch).
  repeat split; try assumption.
  unfold isClosed. rewrite E2. reflexivity.
Qed.

(** ** States reached through [exec] *)

Lemma exec_reachable cfg net fuel : forall l s s',
  reachable cfg net s -> exec fuel l s = Some s' -> reachable cfg net s'.
Proof.
  induction l as [|i l IH]; intros s s' Hr H; cbn in H.
  - injection H as <-. exact Hr.
  - destruct (step fuel i s) as [s1|] eqn:Hs; [|discriminate].
    apply (IH s1); [|exact H]. eapply reach_step; eassumption.
Qed.

Lemma run_reachable cfg net l s :
  exec 0 l (constructor cfg net) = Some s -> reachable cfg net s.
Proof. apply exec_reachable. apply reach_init. Qed.

(** ** Handle and ready state *)

(* What always holds of the pair: a held handle means CONNECTING or OPEN,
   CONNECTING means a handle is held, CLOSED means none is. *)
Lemma handle_state_pairing cfg net s :
  reachable cfg net s ->
  (socket (this s) <> None ->
   _readyState (this s) = CONNECTING \/ _readyState (this s) = OPEN) /\
  (_readyState (this s) = CONNECTING -> socket (this s) <> None) /\
  (_readyState (this s) = CLOSED -> socket (this s) = None).
Proof.
  intros Hr. pose proof (inv_handle s (reachable_Inv _ _ _ Hr)) as Hh.
  unfold handle_inv, CONNECTING, OPEN, CLOSED in *.
  repeat split; intros; intuition congruence.
Qed.

(** C8, at the failing input: the application calls connect(), close() and
    connect() again; the close event of the first socket then arrives and
    its handler clears the handle that belongs to the second socket; when
    the second socket opens the state becomes OPEN although no handle is
    held.  The event loop is at rest in that state, and a reconnect is
    pending on top of the socket that just opened.  A second connect() while
    a handle is held changes nothing. *)
Theorem stale_close_event_clears_new_handle :
  let s := run reconnect_race (constructor defaults net_ok) in
  exec 0 reconnect_race (constructor defaults net_ok) = Some s /\
  reachable defaults net_ok s /\
  _readyState (this s) = OPEN /\
  socket (this s) = None /\
  isOpen s = true /\
  sockets (env s) = [(1%nat, None)] /\
  timers (env s) = [mkTimer 1 TReconnect 1000] /\
  connect (connect (constructor defaults net_ok)) = connect (constructor defaults net_ok).
Proof.
  cbv zeta. split; [vm_compute; reflexivity|]. split.
  - apply (run_reachable defaults net_ok reconnect_race). vm_compute. reflexivity.
  - repeat split; vm_compute; reflexivity.
Qed.

(* In that state a queued message makes the drain loop spin: with no handle
   [send] puts the entry back, so no amount of fuel completes the open
   handler. *)
Lemma drain_spins_without_handle :
  let l := [Connect; Close; Connect; SocketClose 0 1000 "lost"%string;
            Send "a"%string None] in
  let s := run l (constructor queueing net_ok) in
  exec 0 l (constructor queueing net_ok) = Some s /\
  forall fuel, step fuel (SocketOpen 1) s = None.
Proof.
  cbv zeta. split; [vm_compute; reflexivity|].
  intros fuel.
  match goal with
  | |- step fuel _ ?x = None =>
      let v := eval vm_compute in x in
      replace x with v by (vm_compute; reflexivity)
  end.
  unfold step.
  match goal with
  | |- context [enabled ?i ?x] =>
      replace (enabled i x) with true by (vm_compute; reflexivity)
  end.
  cbn [handle].
  match goal with
  | |- context [find_socket 1 ?l] =>
      replace (find_socket 1 l) with (Some (@None TimerId))
        by (vm_compute; reflexivity)
  end.
  unfold onopen.
  match goal with
  | |- context [flushMessageQueue fuel ?x] =>
      let v := eval vm_compute in x in
      replace x with v by (vm_compute; reflexivity);
      assert (E : flushMessageQueue fuel v = None)
  end.
  { induction fuel as [|fuel IH]; [reflexivity|].
    cbn [flushMessageQueue this messageQueue _readyState Z.eqb Pos.eqb].
    match goal with
    | |- flushMessageQueue fuel ?y = None =>
        let w := eval vm_compute in y in
        replace y with w by (vm_compute; reflexivity)
    end.
    exact IH. }
  rewrite E. reflexivity.
Qed.

(** ** Outbound queue *)

(** C6: in every state the event loop can reach, the queue holds at most
    maxQueueSize entries, and maxQueueSize is still the configured value
    (100 when unset).  A send that finds the client not open and the queue
    full returns false, gives the callback the not-open error and leaves
    everything else as it was.  With maxQueueSize = 2 and queueMessages on,
    a freshly constructed (CLOSED) client accepts 'a' and 'b' and refuses
    'c' that way. *)
Theorem queue_bounded_by_maxQueueSize :
  (forall cfg net s,
     reachable cfg net s ->
     (List.length (messageQueue (this s)) <= maxQueueSize (this s))%nat /\
     maxQueueSize (this s) = orNat (cfg_maxQueueSize cfg) 100) /\
  (forall s str cb,
     socket (this s) = None \/ _readyState (this s) <> OPEN ->
     (maxQueueSize (this s) <= List.length (messageQueue (this s)))%nat ->
     send str (Some cb) s = (false, log (Invoke cb (Some NotOpen)) s)) /\
  (forall net mra rd md ct hi ht,
     let s0 := constructor (mkConfig mra rd md (Some 2%nat) true ct hi ht) net in
     let '(ra, sa) := send "a"%string (Some 1%nat) s0 in
     let '(rb, sb) := send "b"%string (Some 2%nat) sa in
     let '(rc, sc) := send "c"%string (Some 3%nat) sb in
     _readyState (this s0) = CLOSED /\
     ra = true /\ rb = true /\
     messageQueue (this sb) = [("a"%string, Some 1%nat); ("b"%string, Some 2%nat)] /\
     rc = false /\
     trace (env sc) = [Invoke 3 (Some NotOpen)] /\
     messageQueue (this sc) = messageQueue (this sb)).
Proof.
  split; [|split].
  - intros cfg net s Hr. split.
    + apply (inv_queue s (reachable_Inv _ _ _ Hr)).
    + pose proof (reachable_settings _ _ _ Hr) as E. unfold settings in E.
      cbn in E. congruence.
  - intros s str cb Hno Hfull. unfold send, invoke.
    apply Nat.ltb_ge in Hfull. rewrite Hfull, andb_false_r.
    destruct (socket (this s)) as [h|]; [|reflexivity].
    destruct (_readyState (this s) =? 1) eqn:E; [|reflexivity].
    apply Z.eqb_eq in E. destruct Hno as [Hno | Hno]; [discriminate|].
    exfalso. apply Hno. exact E.
  - intros. cbv. repeat split; reflexivity.
Qed.

(** C7 (as amended): with queueing disabled, a send that finds the ready
    state other than OPEN, or no handle held, returns false, calls the
    callback with the not-open error and changes nothing else (so the queue
    keeps its length).  A send in state OPEN on a held handle passes the
    payload to that handle; when the handle accepts it the callback is
    called without error and the result is true, when the handle throws the
    callback gets that error and the result is false; in both cases the
    queue is untouched. *)
Theorem send_outcomes (s : State) (str : Payload) (cb : Callback) :
  (_readyState (this s) <> OPEN \/ socket (this s) = None ->
   cfg_queueMessages (config (this s)) = false ->
   send str (Some cb) s = (false, log (Invoke cb (Some NotOpen)) s) /\
   List.length (messageQueue (this (snd (send str (Some cb) s)))) =
     List.length (messageQueue (this s))) /\
  (forall h,
     _readyState (this s) = OPEN ->
     socket (this s) = Some h ->
     let r := fst (send str (Some cb) s) in
     let s' := snd (send str (Some cb) s) in
     messageQueue (this s') = messageQueue (this s) /\
     match sendFails (env s) (sends (env s)) h str with
     | None =>
         r = true /\
         trace (env s') = trace (env s) ++ [SockSend h str; Invoke cb None]
     | Some msg =>
         r = false /\
         trace (env s') =
           trace (env s) ++ [SockSend h str; Invoke cb (Some (Underlying msg))]
     end).
Proof.
  split.
  - intros Hns Hq.
    assert (E : send str (Some cb) s = (false, log (Invoke cb (Some NotOpen)) s)).
    { unfold send, invoke. rewrite Hq. cbn.
      destruct (socket (this s)) as [h|]; [|reflexivity].
      destruct (_readyState (this s) =? 1) eqn:E; [|reflexivity].
      apply Z.eqb_eq in E. exfalso. destruct Hns as [Hns | Hns]; [|discriminate].
      apply Hns. exact E. }
    rewrite E. split; reflexivity.
  - intros h Hs Hh. unfold send, invoke. rewrite Hh, Hs. cbn.
    destruct (sendFails (env s) (sends (env s)) h str) as [msg|]; cbn;
      rewrite <- app_assoc; repeat split; reflexivity.
Qed.

Lemma send_when_open h str cb s :
  socket (this s) = Some h -> _readyState (this s) = 1 ->
  snd (send str cb s) =
  mkState (this s)
    (set_trace (trace (env s) ++ SockSend h str
                  :: callback_action cb (sendFails (env s) (sends (env s)) h str))
       (set_sends (S (sends (env s))) (env s))).
Proof.
  intros Hh Hs. unfold send, invoke, log, upd_env. rewrite Hh, Hs. cbn.
  destruct (sendFails (env s) (sends (env s)) h str), cb; cbn;
    rewrite <- ?app_assoc; reflexivity.
Qed.

Lemma flushMessageQueue_when_open h : forall q s fuel,
  messageQueue (this s) = q ->
  socket (this s) = Some h -> _readyState (this s) = 1 ->
  (List.length q <= fuel)%nat ->
  flushMessageQueue fuel s =
  Some (mkState (set_messageQueue [] (this s))
          (set_trace (trace (env s)
                        ++ drain_actions (sendFails (env s)) (sends (env s)) h q)
             (set_sends (sends (env s) + List.length q) (env s)))).
Proof.
  induction q as [|[data callback] q IH]; intros s fuel Hq Hh Hs Hf.
  - destruct s as [c r]; destruct c, r; cbn in *; subst.
    destruct fuel; cbn; rewrite app_nil_r, Nat.add_0_r; reflexivity.
  - destruct fuel as [|fuel]; [cbn in Hf; lia|].
    cbn [flushMessageQueue]. rewrite Hq, Hs. cbn [Z.eqb Pos.eqb].
    rewrite (send_when_open h) by (cbn; assumption).
    rewrite (IH _ fuel); cbn; try assumption; try reflexivity; [|cbn in Hf; lia].
    unfold upd_this. cbn. rewrite <- !app_assoc. cbn.
    replace (sends (env s) + S (List.length q))%nat
      with (S (sends (env s) + List.length q)) by lia.
    reflexivity.
Qed.

(* With no handle held and queueing on, send puts every entry the loop takes
   out back at the end of the queue. *)
Lemma flushMessageQueue_spins : forall fuel s,
  _readyState (this s) = 1 -> socket (this s) = None ->
  cfg_queueMessages (config (this s)) = true ->
  messageQueue (this s) <> [] ->
  (List.length (messageQueue (this s)) <= maxQueueSize (this s))%nat ->
  flushMessageQueue fuel s = None.
Proof.
  induction fuel as [|fuel IH]; intros s Hs Hh Hq Hne Hlen.
  - cbn. destruct (messageQueue (this s)) as [|[data callback] rest];
      [congruence|]. rewrite Hs. reflexivity.
  - cbn [flushMessageQueue].
    destruct (messageQueue (this s)) as [|[data callback] rest] eqn:Eq;
      [congruence|].
    rewrite Hs. cbn [Z.eqb Pos.eqb].
    assert (E : snd (send data callback (upd_this (set_messageQueue rest) s)) =
                upd_this (set_messageQueue (rest ++ [(data, callback)])) s).
    { unfold send, upd_this. cbn. rewrite Hh, Hq.
      assert (Hlt : (List.length rest <? maxQueueSize (this s))%nat = true)
        by (apply Nat.ltb_lt; cbn in Hlen; lia).
      rewrite Hlt. reflexivity. }
    rewrite E. apply IH; cbn; try assumption.
    + destruct rest; discriminate.
    + rewrite length_app. cbn in *. lia.
Qed.

(* The open handler in the same situation: it sets the state to OPEN and
   enters the loop above. *)
Lemma onopen_spins fuel x :
  socket (this x) = None ->
  cfg_queueMessages (config (this x)) = true ->
  messageQueue (this x) <> [] ->
  (List.length (messageQueue (this x)) <= maxQueueSize (this x))%nat ->
  onopen fuel x = OutOfFuel.
Proof.
  intros Hh Hq Hne Hlen. unfold onopen.
  rewrite flushMessageQueue_spins; cbn; try reflexivity; assumption.
Qed.

(* The open handler returns when a handle is held or nothing is queued, and
   then the attempt counter is 0. *)
Lemma onopen_returns fuel x :
  socket (this x) <> None \/ messageQueue (this x) = [] ->
  (List.length (messageQueue (this x)) <= fuel)%nat ->
  exists s',
    onopen fuel x = Returned s' /\
    reconnectAttempts (this s') = 0%nat /\
    _readyState (this s') = OPEN.
Proof.
  intros Hc Hf. unfold onopen.
  assert (Hfl : exists s4,
            flushMessageQueue fuel
              (emit EvOpen (upd_this (set_reconnectAttempts 0)
                              (upd_this (set_readyState 1) x))) = Some s4 /\
            reconnectAttempts (this s4) = 0%nat /\ _readyState (this s4) = OPEN).
  { destruct (socket (this x)) as [h|] eqn:Hs.
    - rewrite (flushMessageQueue_when_open h (messageQueue (this x)))
        by (cbn; first [assumption | reflexivity]).
      eexists. split; [reflexivity|]. split; reflexivity.
    - destruct Hc as [Hc | Hq]; [congruence|].
      eexists. split.
      + destruct fuel; cbn; rewrite Hq; reflexivity.
      + split; reflexivity. }
  destruct Hfl as (s4 & -> & Ha & Ho).
  eexists. split; [reflexivity|]. rewrite startHeartbeat_eq.
  destruct (truthy (cfg_heartbeatInterval (config (this s4)))); cbn;
    split; assumption.
Qed.

Lemma sent_payloads_app tr1 tr2 :
  sent_payloads (tr1 ++ tr2) = sent_payloads tr1 ++ sent_payloads tr2.
Proof.
  induction tr1 as [|a tr1 IH]; [reflexivity|].
  destruct a; cbn; rewrite IH; reflexivity.
Qed.

Lemma sent_payloads_drain net h : forall q n,
  sent_payloads (drain_actions net n h q) = map fst q.
Proof.
  induction q as [|[data callback] q IH]; intros n; [reflexivity|].
  cbn. rewrite sent_payloads_app, IH.
  destruct callback; reflexivity.
Qed.

Lemma drain_actions_app net h : forall q1 q2 n,
  drain_actions net n h (q1 ++ q2) =
  drain_actions net n h q1 ++ drain_actions net (n + List.length q1) h q2.
Proof.
  induction q1 as [|[data callback] q1 IH]; intros q2 n; cbn.
  - rewrite Nat.add_0_r. reflexivity.
  - rewrite IH, <- app_assoc.
    replace (S n + List.length q1)%nat with (n + S (List.length q1))%nat by lia.
    reflexivity.
Qed.

Lemma startHeartbeat_trace s :
  messageQueue (this (startHeartbeat s)) = messageQueue (this s) /\
  _readyState (this (startHeartbeat s)) = _readyState (this s) /\
  exists hb,
    trace (env (startHeartbeat s)) = trace (env s) ++ hb /\
    sent_payloads hb = [] /\ invocations hb = [].
Proof.
  rewrite startHeartbeat_eq.
  destruct (truthy (cfg_heartbeatInterval (config (this s)))) as [ms|]; cbn.
  - split; [reflexivity|split; [reflexivity|]].
    eexists. split; [reflexivity|].
    destruct (pingInterval (this s)), (pingTimeout (this s)); split; reflexivity.
  - split; [reflexivity|split; [reflexivity|]].
    exists []. rewrite app_nil_r. repeat split.
Qed.

(** X19: when an open event arrives while the client holds a handle, the
    handler sets the state to OPEN, emits open, and then runs the drain loop
    to completion (any fuel of at least the queue length suffices) before
    startHeartbeat is called on the resulting state.  The loop hands every
    queued payload to the handle exactly once and in insertion order, calls
    each entry's callback right after its send with the error if the handle
    threw, and leaves the queue empty: a failed entry is not queued again
    and the entries behind it are still sent.  Starting the heartbeat sends
    nothing and calls no callback. *)
Theorem open_drains_queue_in_order (s : State) (h k : Handle) (fuel : nat) :
  socket (this s) = Some h ->
  (List.length (messageQueue (this s)) <= fuel)%nat ->
  let q := messageQueue (this s) in
  let drain := drain_actions (sendFails (env s)) (sends (env s)) h q in
  exists s4 pre,
    handle fuel (SocketOpen k) s = Returned (startHeartbeat s4) /\
    (pre = [] \/ exists t, pre = [ClearTimer t]) /\
    trace (env s4) = trace (env s) ++ pre ++ Emit EvOpen :: drain /\
    _readyState (this s4) = OPEN /\
    messageQueue (this s4) = [] /\
    pingInterval (this s4) = pingInterval (this s) /\
    sent_payloads drain = map fst q /\
    (forall q1 data c q2 msg,
       q = q1 ++ (data, Some c) :: q2 ->
       sendFails (env s) (sends (env s) + List.length q1) h data = Some msg ->
       exists before,
         drain = before ++ SockSend h data :: Invoke c (Some (Underlying msg))
                   :: drain_actions (sendFails (env s))
                        (S (sends (env s) + List.length q1)) h q2 /\
         sent_payloads before = map fst q1) /\
    messageQueue (this (startHeartbeat s4)) = [] /\
    exists hb,
      trace (env (startHeartbeat s4)) = trace (env s4) ++ hb /\
      sent_payloads hb = [] /\ invocations hb = [].
Proof.
  intros Hh Hf q drain.
  assert (Hopen : forall s0 pre,
            socket (this s0) = Some h ->
            messageQueue (this s0) = q ->
            sendFails (env s0) = sendFails (env s) ->
            sends (env s0) = sends (env s) ->
            pingInterval (this s0) = pingInterval (this s) ->
            trace (env s0) = trace (env s) ++ pre ->
            exists s4,
              onopen fuel s0 = Returned (startHeartbeat s4) /\
              trace (env s4) = trace (env s) ++ pre ++ Emit EvOpen :: drain /\
              _readyState (this s4) = OPEN /\
              messageQueue (this s4) = [] /\
              pingInterval (this s4) = pingInterval (this s)).
  { intros s0 pre H0 Hq0 Hn0 Hc0 Hp0 Ht0. unfold onopen.
    rewrite (flushMessageQueue_when_open h q)
      by (cbn; first [assumption | reflexivity]).
    eexists. split; [reflexivity|]. unfold emit, log, upd_env, upd_this. cbn.
    rewrite Hn0, Hc0, Ht0, Hp0, <- !app_assoc. repeat split. }
  assert (Hs4 : exists s4 pre,
            handle fuel (SocketOpen k) s = Returned (startHeartbeat s4) /\
            (pre = [] \/ exists t, pre = [ClearTimer t]) /\
            trace (env s4) = trace (env s) ++ pre ++ Emit EvOpen :: drain /\
            _readyState (this s4) = OPEN /\
            messageQueue (this s4) = [] /\
            pingInterval (this s4) = pingInterval (this s)).
  { cbn [handle].
    destruct (find_socket k (sockets (env s))) as [[t|]|].
    - destruct (Hopen (clearTimer t s) [ClearTimer t]) as (s4 & H); try reflexivity;
        try assumption.
      exists s4, [ClearTimer t]. intuition eauto.
    - destruct (Hopen s []) as (s4 & H); try reflexivity; try assumption.
      { rewrite app_nil_r. reflexivity. }
      exists s4, []. intuition eauto.
    - destruct (Hopen s []) as (s4 & H); try reflexivity; try assumption.
      { rewrite app_nil_r. reflexivity. }
      exists s4, []. intuition eauto. }
  destruct Hs4 as (s4 & pre & H1 & H2 & H3 & H4 & H5 & H6).
  destruct (startHeartbeat_trace s4) as (G1 & _ & G2).
  exists s4, pre. repeat split; try assumption.
  - apply sent_payloads_drain.
  - intros q1 data c q2 msg Eq Hfail. subst drain. rewrite Eq.
    rewrite drain_actions_app. cbn. rewrite Hfail. cbn.
    eexists. split; [reflexivity|]. apply sent_payloads_drain.
  - rewrite G1. exact H5.
Qed.

(** C2: the run connect(), close(), connect(), close event of the first
    socket, send with queueing on leaves the client without a handle and
    with one queued entry, while the second socket is still to open.  Its
    open event is then handled with the state set to OPEN and the drain
    loop entered, and the loop never ends: for every number of iterations
    allowed the handler has not returned, so the entry is never sent and
    startHeartbeat is never reached. *)
Theorem open_after_stale_close_never_drains :
  let s := run [Connect; Close; Connect; SocketClose 0 1000 "lost"%string;
                Send "a"%string None]
             (constructor queueing net_ok) in
  reachable queueing net_ok s /\
  socket (this s) = None /\
  messageQueue (this s) = [("a"%string, None)] /\
  sent_payloads (trace (env s)) = [] /\
  enabled (SocketOpen 1) s = true /\
  forall fuel,
    handle fuel (SocketOpen 1) s = OutOfFuel /\
    step fuel (SocketOpen 1) s = None.
Proof.
  cbv zeta.
  assert (Hspin : forall fuel,
            handle fuel (SocketOpen 1)
              (run [Connect; Close; Connect; SocketClose 0 1000 "lost"%string;
                    Send "a"%string None]
                 (constructor queueing net_ok)) = OutOfFuel).
  { intros fuel. cbn [handle].
    destruct (find_socket _ _) as [[t|]|]; apply onopen_spins;
      vm_compute; first [reflexivity | discriminate | lia]. }
  split.
  { apply (run_reachable queueing net_ok
             [Connect; Close; Connect; SocketClose 0 1000 "lost"%string;
              Send "a"%string None]).
    vm_compute. reflexivity. }
  do 4 (split; [vm_compute; reflexivity|]).
  intros fuel. split; [apply Hspin|].
  unfold step. rewrite Hspin.
  destruct (enabled _ _); reflexivity.
Qed.

(** ** Heartbeat monitor *)

Lemma heartbeat_timeouts_app tr1 tr2 :
  heartbeat_timeouts (tr1 ++ tr2) = (heartbeat_timeouts tr1 + heartbeat_timeouts tr2)%nat.
Proof.
  induction tr1 as [|a tr1 IH]; [reflexivity|].
  destruct a as [e| | | | | |]; cbn; try exact IH.
  destruct e; cbn; rewrite ?IH; reflexivity.
Qed.

Lemma heartbeatTick_late s h :
  _readyState (this s) = OPEN -> socket (this s) = Some h ->
  now (env s) - match lastPongTime (this s) with Some p => p | None => 0 end
    > orZ (cfg_heartbeatTimeout (config (this s))) 30000 ->
  heartbeatTick s = Returned (log (SockClose h) (emit EvHeartbeatTimeout s)).
Proof.
  intros Hs Hh Hgt. unfold heartbeatTick. rewrite Hs. cbn [Z.eqb Pos.eqb OPEN].
  destruct (Z.gtb_spec
              (now (env s) - match lastPongTime (this s) with Some p => p | None => 0 end)
              (orZ (cfg_heartbeatTimeout (config (this s))) 30000)) as [_|Hle]; [|lia].
  replace (socket (this (emit EvHeartbeatTimeout s))) with (socket (this s))
    by reflexivity.
  rewrite Hh. reflexivity.
Qed.

(* As long as neither a message nor the close event arrives, every further
   tick finds the same fields and emits again. *)
Lemma heartbeat_ticks_repeat fuel t tm h : forall n s,
  find_timer t (timers (env s)) = Some tm ->
  tkind tm = THeartbeat ->
  _readyState (this s) = OPEN -> socket (this s) = Some h ->
  now (env s) - match lastPongTime (this s) with Some p => p | None => 0 end
    > orZ (cfg_heartbeatTimeout (config (this s))) 30000 ->
  exists sn,
    exec fuel (repeat (TimerFires t) n) s = Some sn /\
    heartbeat_timeouts (trace (env sn)) = (heartbeat_timeouts (trace (env s)) + n)%nat /\
    this sn = this s /\
    timers (env sn) = timers (env s).
Proof.
  induction n as [|n IH]; intros s Hf Hk Hs Hh Hgt.
  - exists s. cbn. rewrite Nat.add_0_r. repeat split.
  - cbn [repeat exec]. unfold step. cbn [enabled handle]. rewrite Hf, Hk.
    rewrite (heartbeatTick_late s h Hs Hh Hgt).
    destruct (IH (log (SockClose h) (emit EvHeartbeatTimeout s)))
      as (sn & E & Hc & Ht & Htm); try assumption.
    exists sn. split; [exact E|]. split; [|split; assumption].
    rewrite Hc. unfold emit, log, upd_env. cbn.
    rewrite !heartbeat_timeouts_app. cbn. lia.
Qed.

(** C3 (as amended): a tick of the heartbeat interval that finds the state
    OPEN, a handle held, and more than the heartbeat timeout (the configured
    value, 30000 when unset) elapsed since lastPongTime emits
    heartbeat-timeout and then closes that handle; it writes no field of the
    client and leaves the timers alone, so the ready state only changes when
    the close event arrives, whose handler clears the interval so that no
    heartbeat timer is left.  Until then every further tick does the same
    again: n ticks in a row emit heartbeat-timeout n times.  A tick that
    finds the state not OPEN, or the elapsed time within the timeout, does
    nothing.  A message event of any socket, in any state, stores the
    current time in lastPongTime and emits message with the payload it
    carried. *)
Theorem heartbeat_tick_and_message :
  (forall s,
     cfg_heartbeatTimeout (config (this s)) = None ->
     orZ (cfg_heartbeatTimeout (config (this s))) 30000 = 30000) /\
  (forall (s : State) (fuel : nat) (t : TimerId) (tm : Timer) (h : Handle),
     find_timer t (timers (env s)) = Some tm ->
     tkind tm = THeartbeat ->
     _readyState (this s) = OPEN -> socket (this s) = Some h ->
     now (env s) - match lastPongTime (this s) with Some p => p | None => 0 end
       > orZ (cfg_heartbeatTimeout (config (this s))) 30000 ->
     (exists s',
        handle fuel (TimerFires t) s = Returned s' /\
        trace (env s') = trace (env s) ++ [Emit EvHeartbeatTimeout; SockClose h] /\
        heartbeat_timeouts (trace (env s')) = S (heartbeat_timeouts (trace (env s))) /\
        this s' = this s /\
        timers (env s') = timers (env s) /\
        forall cfg net code reason,
          reachable cfg net s ->
          let s2 := onclose code reason (drop_socket h s') in
          pingInterval (this s2) = None /\
          forall tm2, In tm2 (timers (env s2)) -> tkind tm2 <> THeartbeat) /\
     (forall n,
        exists sn,
          exec fuel (repeat (TimerFires t) n) s = Some sn /\
          heartbeat_timeouts (trace (env sn)) =
            (heartbeat_timeouts (trace (env s)) + n)%nat /\
          this sn = this s /\
          timers (env sn) = timers (env s))) /\
  (forall (s : State) (fuel : nat) (t : TimerId) (tm : Timer),
     find_timer t (timers (env s)) = Some tm ->
     tkind tm = THeartbeat ->
     _readyState (this s) <> OPEN \/
     now (env s) - match lastPongTime (this s) with Some p => p | None => 0 end
       <= orZ (cfg_heartbeatTimeout (config (this s))) 30000 ->
     handle fuel (TimerFires t) s = Returned s) /\
  (forall (s : State) (fuel : nat) k data,
     exists s',
       handle fuel (SocketMessage k data) s = Returned s' /\
       lastPongTime (this s') = Some (now (env s)) /\
       trace (env s') = trace (env s) ++ [Emit (EvMessage data)] /\
       _readyState (this s') = _readyState (this s) /\
       socket (this s') = socket (this s)).
Proof.
  split; [|split; [|split]].
  - intros s E. rewrite E. reflexivity.
  - intros s fuel t tm h Hf Hk Hs Hh Hgt. split.
    + cbn [handle]. rewrite Hf, Hk. rewrite (heartbeatTick_late s h Hs Hh Hgt).
      eexists. split; [reflexivity|]. unfold emit, log, upd_env. cbn.
      rewrite <- app_assoc.
      split; [reflexivity|]. split; [rewrite heartbeat_timeouts_app; cbn; lia|].
      split; [reflexivity|]. split; [reflexivity|].
      intros cfg net code reason Hr.
      pose proof (inv_heartbeat s (reachable_Inv _ _ _ Hr)) as Hown.
      rewrite onclose_eq. cbn -[scheduleReconnect].
      destruct (_ && _).
      * rewrite scheduleReconnect_eq. cbn. split; [reflexivity|]. timers_finish.
      * destruct (_ <=? _)%nat; cbn; (split; [reflexivity|]); timers_finish.
    + intros n. apply (heartbeat_ticks_repeat fuel t tm h n s); assumption.
  - intros s fuel t tm Hf Hk Hno. cbn [handle]. rewrite Hf, Hk. unfold heartbeatTick.
    destruct (_readyState (this s) =? 1) eqn:E; [|reflexivity].
    destruct (Z.gtb_spec
                (now (env s) - match lastPongTime (this s) with Some p => p | None => 0 end)
                (orZ (cfg_heartbeatTimeout (config (this s))) 30000))
      as [Hgt|_]; [|reflexivity].
    apply Z.eqb_eq in E. destruct Hno as [Hno | Hno]; [|lia].
    exfalso. apply Hno. exact E.
  - intros s fuel k data. eexists. split; [reflexivity|].
    unfold onmessage, emit, log, upd_env, upd_this. cbn. repeat split.
Qed.

(** ** Giving up after the attempt limit *)

(* While the limit is reached the counter stays where it is, and
   reconnect-failed is emitted by every close event and by nothing else. *)
Lemma step_exhausted_failures fuel i s s' :
  exhausted s -> keeps_exhaustion i -> step fuel i s = Some s' ->
  reconnectAttempts (this s') = reconnectAttempts (this s) /\
  filter is_reconnect_failed (trace (env s')) =
    filter is_reconnect_failed (trace (env s))
    ++ match i with
       | SocketClose _ _ _ => [Emit (EvReconnectFailed (reconnectAttempts (this s)))]
       | _ => []
       end.
Proof.
  intros (Hmax & Hnp) Hi H. destruct i; try contradiction.
  - (* Connect *)
    injection H as <-.
    destruct (socket (this s)) as [h|] eqn:Hs.
    + rewrite (connect_noop s h Hs). rewrite app_nil_r. split; reflexivity.
    + rewrite (connect_eq s Hs).
      destruct (truthy (cfg_connectTimeoutMs (config (this s)))); quiet_finish;
        split; reflexivity.
  - (* Close *)
    injection H as <-.
    destruct (socket (this s)) as [h|] eqn:Hs.
    + rewrite (close_eq s h Hs). quiet_finish. split; reflexivity.
    + rewrite (close_none s Hs). rewrite app_nil_r. split; reflexivity.
  - (* Send *)
    injection H as <-.
    destruct (send_shape str cb s) as (q & n & tr & E & Ft & _). rewrite E. cbn.
    rewrite !filter_app.
    rewrite (filter_lifecycle_nil is_reconnect_failed tr
               is_reconnect_failed_lifecycle Ft).
    split; reflexivity.
  - (* SocketMessage *)
    unfold step in H. destruct (enabled _ s); [|discriminate].
    injection H as <-. unfold onmessage, emit, log, upd_env, upd_this. quiet_finish.
    split; reflexivity.
  - (* SocketError *)
    unfold step in H. destruct (enabled _ s); [|discriminate].
    injection H as <-. unfold onerror, emit, log, upd_env, upd_this. quiet_finish.
    split; reflexivity.
  - (* SocketClose *)
    unfold step in H. destruct (enabled _ s); [|discriminate].
    injection H as <-. rewrite onclose_eq. cbn.
    assert (E1 : (reconnectAttempts (this s) <? maxReconnectAttempts (this s))%nat = false)
      by (apply Nat.ltb_ge; exact Hmax).
    assert (E2 : (maxReconnectAttempts (this s) <=? reconnectAttempts (this s))%nat = true)
      by (apply Nat.leb_le; exact Hmax).
    rewrite E1, E2, andb_false_r.
    unfold closed_base, emit, log, upd_env, upd_this. quiet_finish.
    split; reflexivity.
  - (* TimerFires *)
    apply step_TimerFires in H. destruct H as (tm & Hin & Ht & H).
    pose proof (Hnp tm Hin) as Hk.
    destruct (tkind tm); [|congruence|].
    + subst s'. destruct (_ =? 0).
      * destruct (socket (this (expire t s))) as [h|] eqn:Hs.
        -- rewrite (close_eq _ h Hs). unfold emit, log, expire, upd_env. quiet_finish.
           split; reflexivity.
        -- rewrite (close_none _ Hs). unfold emit, log, expire, upd_env. quiet_finish.
           split; reflexivity.
      * unfold expire, upd_env. cbn. rewrite app_nil_r. split; reflexivity.
    + unfold emit, log, upd_env in H.
      destruct H as [-> | [[_ ->] | (h & _ & _ & ->)]]; quiet_finish;
        rewrite ?app_nil_r; split; reflexivity.
  - (* Elapse *)
    injection H as <-. cbn. rewrite app_nil_r. split; reflexivity.
Qed.

Lemma exec_exhausted_failures fuel : forall l s s',
  exhausted s -> Forall keeps_exhaustion l -> exec fuel l s = Some s' ->
  reconnectAttempts (this s') = reconnectAttempts (this s) /\
  filter is_reconnect_failed (trace (env s')) =
    filter is_reconnect_failed (trace (env s))
    ++ repeat (Emit (EvReconnectFailed (reconnectAttempts (this s)))) (close_events l).
Proof.
  induction l as [|i l IH]; intros s s' Hd Hl H; cbn in H.
  - injection H as <-. cbn. rewrite app_nil_r. split; reflexivity.
  - destruct (step fuel i s) as [s1|] eqn:Hs; [|discriminate].
    inversion Hl as [|? ? Hi Hl']; subst.
    destruct (step_exhausted _ _ _ _ Hd Hi Hs) as (Hd1 & _).
    destruct (step_exhausted_failures _ _ _ _ Hd Hi Hs) as (Ha1 & Hf1).
    destruct (IH _ _ Hd1 Hl' H) as (Ha2 & Hf2).
    split; [congruence|].
    rewrite Hf2, Hf1, Ha1, <- app_assoc.
    destruct i; reflexivity.
Qed.

(** C5 (as amended): when the close handler runs with the attempt counter
    at or above maxReconnectAttempts it emits reconnect-failed(attempts)
    once and arms no timer.  Counting from a connection with the counter at
    0 (a fresh connect() or one that had opened): after that connection is
    lost, each of the first maxReconnectAttempts - 1 failed reconnect
    attempts leaves the next attempt pending and emits no reconnect-failed;
    the failure of attempt number maxReconnectAttempts adds exactly one
    reconnect-failed(maxReconnectAttempts) and leaves no reconnect timer.
    From then on, whatever happens short of an open event or
    resetReconnectAttempts(), the counter stays where it is, no reconnect is
    scheduled, no socket is created unless the application calls connect(),
    and every further close event emits reconnect-failed again, so that the
    notification is not limited to one.  resetReconnectAttempts() sets the
    counter to 0.  An open event handled while a handle is held or the
    queue is empty returns, given as many loop iterations as the queue has
    entries, with the counter at 0 and the state OPEN; and whenever the
    open handler returns the counter is 0. *)
Theorem reconnect_gives_up_at_the_limit :
  (forall code reason s,
     (maxReconnectAttempts (this s) <= reconnectAttempts (this s))%nat ->
     onclose code reason s =
       emit (EvReconnectFailed (reconnectAttempts (this s)))
         (closed_base code reason s)) /\
  (forall cfg net s h fuel code reason,
     reachable cfg net s ->
     socket (this s) = Some h ->
     enabled (SocketClose h code reason) s = true ->
     shouldReconnect (this s) = true ->
     reconnectAttempts (this s) = 0%nat ->
     let m := orNat (cfg_maxReconnectAttempts cfg) 5 in
     let F := filter is_reconnect_failed (trace (env s)) in
     exists s0,
       connection_lost fuel code reason s = Some s0 /\
       (forall j, (j < m)%nat ->
          exists sj t tm,
            failed_attempts fuel code reason j s0 = Some sj /\
            filter is_reconnect_failed (trace (env sj)) = F /\
            reconnectTimer (this sj) = Some t /\
            find_timer t (timers (env sj)) = Some tm /\
            tkind tm = TReconnect) /\
       exists sm,
         failed_attempts fuel code reason m s0 = Some sm /\
         filter is_reconnect_failed (trace (env sm)) =
           F ++ [Emit (EvReconnectFailed m)] /\
         socket (this sm) = None /\
         exhausted sm) /\
  (forall fuel l s s',
     exhausted s -> Forall keeps_exhaustion l -> exec fuel l s = Some s' ->
     exhausted s' /\
     filter is_schedule (trace (env s')) = filter is_schedule (trace (env s)) /\
     (Forall (fun i => i <> Connect) l ->
      filter is_connect (trace (env s')) = filter is_connect (trace (env s))) /\
     reconnectAttempts (this s') = reconnectAttempts (this s) /\
     filter is_reconnect_failed (trace (env s')) =
       filter is_reconnect_failed (trace (env s))
       ++ repeat (Emit (EvReconnectFailed (reconnectAttempts (this s))))
            (close_events l)) /\
  (forall s, reconnectAttempts (this (resetReconnectAttempts s)) = 0%nat) /\
  (forall fuel s k,
     socket (this s) <> None \/ messageQueue (this s) = [] ->
     (List.length (messageQueue (this s)) <= fuel)%nat ->
     exists s',
       handle fuel (SocketOpen k) s = Returned s' /\
       reconnectAttempts (this s') = 0%nat /\
       _readyState (this s') = OPEN) /\
  (forall fuel s s', onopen fuel s = Returned s' -> reconnectAttempts (this s') = 0%nat).
Proof.
  split; [|split; [|split; [|split; [|split]]]].
  - intros code reason s Hmax. rewrite onclose_eq. cbn zeta.
    assert (E1 : (reconnectAttempts (this s) <? maxReconnectAttempts (this s))%nat = false)
      by (apply Nat.ltb_ge; exact Hmax).
    assert (E2 : (maxReconnectAttempts (this s) <=? reconnectAttempts (this s))%nat = true)
      by (apply Nat.leb_le; exact Hmax).
    rewrite E1, E2, andb_false_r. reflexivity.
  - intros cfg net s h fuel code reason Hr Hs Hen Hsr Hk m F.
    pose proof (reachable_Inv _ _ _ Hr) as HI.
    assert (Hm : maxReconnectAttempts (this s) = m).
    { pose proof (reachable_settings _ _ _ Hr) as E. unfold settings in E.
      cbn in E. unfold m. congruence. }
    assert (Hpos : (0 < m)%nat) by (apply orNat_pos; lia).
    assert (Hlive : find_socket h (sockets (env s)) <> None).
    { unfold enabled in Hen.
      destruct (find_socket h (sockets (env s))); [discriminate|discriminate Hen]. }
    destruct (connection_lost_retry fuel code reason s h m 0 HI Hs Hlive Hsr Hm Hk Hpos)
      as (s0 & E0 & Hr0).
    fold F in Hr0. exists s0. split; [exact E0|]. split.
    + intros j Hj.
      destruct (failed_attempts_retry fuel code reason m F j s0 1 Hr0) as (sj & Ej & Hrj);
        [lia|].
      pose proof Hrj as (HIj & _ & _ & _ & _ & (t & tm & Ht & Hfind) & HFj).
      exists sj, t, tm. repeat split; try assumption.
      pose proof (find_timer_In _ _ _ Hfind) as [Hin Htid].
      apply (inv_reconnect sj HIj tm Hin). congruence.
    + destruct (failed_attempts_retry fuel code reason m F (m - 1) s0 1 Hr0)
        as (s1 & E1 & Hr1); [lia|].
      replace (1 + (m - 1))%nat with m in Hr1 by lia.
      destruct (failed_attempt_last fuel code reason s1 m F Hr1)
        as (sm & Em & HFm & Hsm & _ & Hem).
      exists sm. split; [|repeat split; try assumption; apply Hem].
      replace m with (S (m - 1)) at 1 by lia.
      rewrite failed_attempts_snoc, E1. exact Em.
  - intros fuel l s s' He Hl Hx.
    destruct (exec_exhausted fuel l s s' He Hl Hx) as (G1 & G2 & G3).
    destruct (exec_exhausted_failures fuel l s s' He Hl Hx) as (G4 & G5).
    split; [exact G1|]. split; [exact G2|]. split; [exact G3|].
    split; [exact G4|exact G5].
  - intros s. reflexivity.
  - intros fuel s k Hc Hf. cbn [handle].
    destruct (find_socket k (sockets (env s))) as [[t|]|];
      apply onopen_returns; assumption.
  - intros fuel s s' H. apply onopen_result in H.
    destruct H as (q & n & tr & -> & _). rewrite startHeartbeat_eq. cbn.
    destruct (truthy (cfg_heartbeatInterval (config (this s)))); reflexivity.
Qed.

(** ** Ready state and its getters *)

(** C9 (as amended): at rest the ready state is one of the four enum
    values.  isOpen and isConnecting are true exactly when the state is OPEN
    or CONNECTING respectively, so they are never true together; isClosed and
    isClosing are true exactly when no handle is held or the state is CLOSED
    or CLOSING respectively.  While a handle is held exactly one of the four
    getters is true; while none is held isClosed and isClosing are both
    true. *)
Theorem getters_follow_state_and_handle cfg net s :
  reachable cfg net s ->
  (_readyState (this s) = CONNECTING \/ _readyState (this s) = OPEN \/
   _readyState (this s) = CLOSING \/ _readyState (this s) = CLOSED) /\
  (isOpen s = true <-> _readyState (this s) = OPEN) /\
  (isConnecting s = true <-> _readyState (this s) = CONNECTING) /\
  (isClosed s = true <-> socket (this s) = None \/ _readyState (this s) = CLOSED) /\
  (isClosing s = true <-> socket (this s) = None \/ _readyState (this s) = CLOSING) /\
  isOpen s && isConnecting s = false /\
  (socket (this s) <> None ->
   List.length (filter (fun b : bool => b)
                  [isOpen s; isClosed s; isClosing s; isConnecting s]) = 1%nat) /\
  (socket (this s) = None -> isClosed s = true /\ isClosing s = true).
Proof.
  intros Hr. pose proof (inv_handle s (reachable_Inv _ _ _ Hr)) as Hh.
  unfold handle_inv in Hh.
  unfold isOpen, isConnecting, isClosed, isClosing, CONNECTING, OPEN, CLOSING, CLOSED.
  split; [|split; [|split; [|split; [|split; [|split; [|split]]]]]].
  - destruct Hh as [[-> _] | [-> | [-> _]]]; auto.
  - apply Z.eqb_eq.
  - apply Z.eqb_eq.
  - destruct (socket (this s)).
    + rewrite Z.eqb_eq. split; [auto|]. intros [H | H]; [discriminate|exact H].
    + split; auto.
  - destruct (socket (this s)).
    + rewrite Z.eqb_eq. split; [auto|]. intros [H | H]; [discriminate|exact H].
    + split; auto.
  - destruct Hh as [[-> _] | [-> | [-> _]]]; reflexivity.
  - intros Hs. destruct (socket (this s)) as [h|]; [|congruence].
    destruct Hh as [[-> _] | [-> | [_ Hn]]]; [reflexivity | reflexivity | discriminate].
  - intros ->. split; reflexivity.
Qed.

(** * Instances *)

(** ** close() and the getters at concrete states *)


(* A freshly constructed client is CLOSED, yet isClosing is true as well as
   isClosed. *)
Lemma isClosing_true_while_closed :
  let s := constructor defaults net_ok in
  _readyState (this s) = CLOSED /\
  _readyState (this s) <> CLOSING /\
  isClosing s = true /\
  isClosed s = true.
Proof. vm_compute. repeat split. discriminate. Qed.

(* One stretch of silence, two ticks before the close event of the handle
   arrives: heartbeat-timeout is emitted twice and the handle closed twice. *)
Lemma heartbeat_timeout_repeats_each_tick :
  let inputs := [Connect; SocketOpen 0; Elapse 40000; TimerFires 1;
                 Elapse 1000; TimerFires 1] in
  exists s,
    exec 0 inputs (constructor with_heartbeat net_ok) = Some s /\
    _readyState (this s) = OPEN /\
    socket (this s) = Some 0%nat /\
    heartbeat_timeouts (trace (env s)) = 2%nat /\
    filter (fun a => match a with SockClose _ => true | _ => false end)
      (trace (env s)) = [SockClose 0; SockClose 0].
Proof. cbv zeta. eexists. vm_compute. repeat split. Qed.

(* With a limit of one attempt: the failed reconnect emits reconnect-failed;
   a connect() by the application that fails too emits it a second time
   without any reset or open in between.  So does the close event of a
   socket that close() had closed earlier, with no connect() after the
   limit was reached. *)
Lemma reconnect_failed_emitted_again :
  let gave_up := [Connect; SocketClose 0 1006 "lost"%string; TimerFires 1;
                  SocketClose 1 1006 "lost"%string] in
  let manual := gave_up ++ [Connect; SocketClose 2 1006 "lost"%string] in
  let late := [Connect; Close; Connect; SocketClose 1 1006 "lost"%string;
               TimerFires 1; SocketClose 2 1006 "lost"%string;
               SocketClose 0 1000 "lost"%string] in
  (exists s,
     exec 0 gave_up (constructor one_attempt net_ok) = Some s /\
     filter is_reconnect_failed (trace (env s)) = [Emit (EvReconnectFailed 1)]) /\
  (exists s,
     exec 0 manual (constructor one_attempt net_ok) = Some s /\
     filter is_reconnect_failed (trace (env s)) =
       [Emit (EvReconnectFailed 1); Emit (EvReconnectFailed 1)]) /\
  (exists s,
     exec 0 late (constructor one_attempt net_ok) = Some s /\
     filter is_reconnect_failed (trace (env s)) =
       [Emit (EvReconnectFailed 1); Emit (EvReconnectFailed 1)]).
Proof. cbv zeta. repeat split; eexists; vm_compute; split; reflexivity. Qed.

(* In state OPEN with no handle held, send does not reach any socket: with
   queueing off it reports the not-open error and returns false, with
   queueing on it stores the entry and returns true. *)
Lemma send_while_open_without_handle :
  let s := run reconnect_race (constructor defaults net_ok) in
  let q := run reconnect_race (constructor queueing net_ok) in
  _readyState (this s) = OPEN /\
  send "x"%string (Some 7%nat) s = (false, log (Invoke 7 (Some NotOpen)) s) /\
  sent_payloads (trace (env (snd (send "x"%string (Some 7%nat) s)))) = [] /\
  _readyState (this q) = OPEN /\
  fst (send "x"%string (Some 7%nat) q) = true /\
  messageQueue (this (snd (send "x"%string (Some 7%nat) q))) =
    [("x"%string, Some 7%nat)] /\
  trace (env (snd (send "x"%string (Some 7%nat) q))) = trace (env q).
Proof. vm_compute. repeat split. Qed.

(** ** The theorems at concrete inputs *)

Lemma open_drains_queue_in_order_witness :
  let s := run [Connect; Send "a"%string (Some 1%nat); Send "b"%string (Some 2%nat)]
             (constructor queueing net_ok) in
  exists s',
    handle 2 (SocketOpen 0) s = Returned s' /\ messageQueue (this s') = [].
Proof.
  cbv zeta.
  destruct (open_drains_queue_in_order
              (run [Connect; Send "a"%string (Some 1%nat); Send "b"%string (Some 2%nat)]
                 (constructor queueing net_ok)) 0%nat 0%nat 2%nat)
    as (s4 & pre & H1 & _ & _ & _ & _ & _ & _ & _ & H9 & _).
  - vm_compute. reflexivity.
  - vm_compute. lia.
  - exists (startHeartbeat s4). split; [exact H1|exact H9].
Defined.

Lemma heartbeat_tick_and_message_witness :
  let quiet := run [Connect; SocketOpen 0] (constructor with_heartbeat net_ok) in
  let s := run [Connect; SocketOpen 0; Elapse 40000]
             (constructor with_heartbeat net_ok) in
  (exists s',
     handle 0 (TimerFires 1) s = Returned s' /\
     trace (env s') = trace (env s) ++ [Emit EvHeartbeatTimeout; SockClose 0]) /\
  (exists s3,
     exec 0 (repeat (TimerFires 1) 3) s = Some s3 /\
     heartbeat_timeouts (trace (env s3)) = (heartbeat_timeouts (trace (env s)) + 3)%nat) /\
  handle 0 (TimerFires 1) quiet = Returned quiet.
Proof.
  cbv zeta. split; [|split].
  - destruct (proj1 (proj2 heartbeat_tick_and_message)
                (run [Connect; SocketOpen 0; Elapse 40000]
                   (constructor with_heartbeat net_ok))
                0%nat 1%nat (mkTimer 1 THeartbeat 1000) 0%nat)
      as ((s' & H1 & H2 & _) & _).
    + vm_compute. reflexivity.
    + reflexivity.
    + vm_compute. reflexivity.
    + vm_compute. reflexivity.
    + vm_compute. reflexivity.
    + exists s'. split; [exact H1|exact H2].
  - destruct (proj1 (proj2 heartbeat_tick_and_message)
                (run [Connect; SocketOpen 0; Elapse 40000]
                   (constructor with_heartbeat net_ok))
                0%nat 1%nat (mkTimer 1 THeartbeat 1000) 0%nat)
      as (_ & H).
    + vm_compute. reflexivity.
    + reflexivity.
    + vm_compute. reflexivity.
    + vm_compute. reflexivity.
    + vm_compute. reflexivity.
    + destruct (H 3%nat) as (s3 & E1 & E2 & _).
      exists s3. split; [exact E1|exact E2].
  - apply (proj1 (proj2 (proj2 heartbeat_tick_and_message))
             (run [Connect; SocketOpen 0] (constructor with_heartbeat net_ok))
             0%nat 1%nat (mkTimer 1 THeartbeat 1000)).
    + vm_compute. reflexivity.
    + reflexivity.
    + right. vm_compute. discriminate.
Defined.


Lemma reconnect_gives_up_at_the_limit_witness :
  let s := connect (constructor defaults net_ok) in
  let gave_up := run [Connect; SocketClose 0 1006 "lost"%string; TimerFires 1;
                      SocketClose 1 1006 "lost"%string]
                   (constructor one_attempt net_ok) in
  let later := run [Connect; SocketClose 2 1006 "lost"%string] gave_up in
  (exists s0 sm,
     connection_lost 0 1006 "lost"%string s = Some s0 /\
     failed_attempts 0 1006 "lost"%string 5 s0 = Some sm /\
     filter is_reconnect_failed (trace (env sm)) = [Emit (EvReconnectFailed 5)]) /\
  onclose 1000 "lost"%string gave_up
    = emit (EvReconnectFailed 1) (closed_base 1000 "lost"%string gave_up) /\
  filter is_schedule (trace (env later)) = filter is_schedule (trace (env gave_up)) /\
  filter is_reconnect_failed (trace (env later)) =
    filter is_reconnect_failed (trace (env gave_up))
    ++ repeat (Emit (EvReconnectFailed (reconnectAttempts (this gave_up))))
         (close_events [Connect; SocketClose 2 1006 "lost"%string]) /\
  (exists s',
     handle 0 (SocketOpen 0) s = Returned s' /\ reconnectAttempts (this s') = 0%nat).
Proof.
  cbv zeta. split; [|split; [|split; [|split]]].
  - destruct (proj1 (proj2 reconnect_gives_up_at_the_limit) defaults net_ok
                (connect (constructor defaults net_ok)) 0%nat 0%nat 1006 "lost"%string)
      as (s0 & H0 & _ & (sm & Hm & HF & _)).
    + apply (run_reachable defaults net_ok [Connect]). vm_compute. reflexivity.
    + vm_compute. reflexivity.
    + vm_compute. reflexivity.
    + vm_compute. reflexivity.
    + vm_compute. reflexivity.
    + exists s0, sm. split; [exact H0|]. split; [exact Hm|exact HF].
  - apply (proj1 reconnect_gives_up_at_the_limit 1000 "lost"%string).
    vm_compute. lia.
  - apply (proj1 (proj2 (proj2 reconnect_gives_up_at_the_limit)) 0%nat
             [Connect; SocketClose 2 1006 "lost"%string]).
    + split; [vm_compute; lia|]. vm_compute. intros tm [].
    + repeat constructor.
    + vm_compute. reflexivity.
  - apply (proj1 (proj2 (proj2 reconnect_gives_up_at_the_limit)) 0%nat
             [Connect; SocketClose 2 1006 "lost"%string]).
    + split; [vm_compute; lia|]. vm_compute. intros tm [].
    + repeat constructor.
    + vm_compute. reflexivity.
  - destruct (proj1 (proj2 (proj2 (proj2 (proj2 reconnect_gives_up_at_the_limit))))
                0%nat (connect (constructor defaults net_ok)) 0%nat)
      as (s' & H1 & H2 & _).
    + left. vm_compute. discriminate.
    + vm_compute. lia.
    + exists s'. split; [exact H1|exact H2].
Defined.

Lemma queue_bounded_by_maxQueueSize_witness :
  let s := run [Send "a"%string (Some 1%nat); Send "b"%string (Some 2%nat)]
             (constructor queueing net_ok) in
  (List.length (messageQueue (this s)) <= maxQueueSize (this s))%nat /\
  send "c"%string (Some 3%nat) s = (false, log (Invoke 3 (Some NotOpen)) s).
Proof.
  cbv zeta. split.
  - apply (proj1 queue_bounded_by_maxQueueSize queueing net_ok).
    apply (run_reachable queueing net_ok
             [Send "a"%string (Some 1%nat); Send "b"%string (Some 2%nat)]).
    vm_compute. reflexivity.
  - apply (proj1 (proj2 queue_bounded_by_maxQueueSize)).
    + left. vm_compute. reflexivity.
    + vm_compute. lia.
Defined.

Lemma send_outcomes_witness :
  let closed := constructor defaults net_ok in
  let opened := run [Connect; SocketOpen 0] (constructor defaults net_ok) in
  send "x"%string (Some 1%nat) closed
    = (false, log (Invoke 1 (Some NotOpen)) closed) /\
  messageQueue (this (snd (send "x"%string (Some 1%nat) opened)))
    = messageQueue (this opened).
Proof.
  cbv zeta. split.
  - apply (proj1 (send_outcomes (constructor defaults net_ok) "x"%string 1%nat)).
    + left. vm_compute. discriminate.
    + vm_compute. reflexivity.
  - apply (proj2 (send_outcomes
                    (run [Connect; SocketOpen 0] (constructor defaults net_ok))
                    "x"%string 1%nat) 0%nat); vm_compute; reflexivity.
Defined.

Lemma getters_follow_state_and_handle_witness :
  let s := constructor defaults net_ok in
  (isClosed s = true <-> socket (this s) = None \/ _readyState (this s) = CLOSED) /\
  isOpen s && isConnecting s = false.
Proof.
  cbv zeta.
  destruct (getters_follow_state_and_handle defaults net_ok
              (constructor defaults net_ok) (reach_init defaults net_ok))
    as (_ & _ & _ & H4 & _ & H6 & _).
  split; [exact H4|exact H6].
Defined.

Lemma connect_timeout_disables_reconnect_witness :
  let s := connect (constructor with_connect_timeout net_ok) in
  exists s',
    handle 0 (TimerFires 1) s = Returned s' /\
    shouldReconnect (this s') = false /\
    socket (this s') = None /\
    isClosed (run [SocketClose 0 1006 "lost"%string] s') = true.
Proof.
  cbv zeta.
  destruct (connect_timeout_disables_reconnect with_connect_timeout net_ok
              (connect (constructor with_connect_timeout net_ok))
              1%nat (mkTimer 1 TConnectTimeout 20000) 0%nat)
    as (h & s' & _ & H2 & H3 & _ & H5 & H6 & _ & H8).
  - apply (run_reachable with_connect_timeout net_ok [Connect]).
    vm_compute. reflexivity.
  - vm_compute. reflexivity.
  - reflexivity.
  - vm_compute. reflexivity.
  - exists s'. split; [exact H2|]. split; [exact H5|]. split; [exact H6|].
    apply (H8 0%nat [SocketClose 0 1006 "lost"%string]).
    + repeat constructor; discriminate.
    + rewrite H3. vm_compute. reflexivity.
Defined.

(** * Further properties of the class *)

(** ** connect() and close() called twice *)

(** X1: calling connect() a second time, or close() a second time, changes
    nothing: the first call leaves a handle (respectively no handle), and
    the guard at the top of each method returns at once. *)
Theorem connect_and_close_are_idempotent (s : State) :
  connect (connect s) = connect s /\ close (close s) = close s.
Proof.
  split.
  - destruct (socket (this s)) as [h|] eqn:Hs.
    + rewrite (connect_noop s h Hs). apply (connect_noop s h Hs).
    + apply (connect_noop _ (nextHandle (env s))).
      rewrite (connect_eq s Hs).
      destruct (truthy (cfg_connectTimeoutMs (config (this s)))); reflexivity.
  - destruct (socket (this s)) as [h|] eqn:Hs.
    + apply close_none. rewrite (close_eq s h Hs). reflexivity.
    + rewrite (close_none s Hs). apply (close_none s Hs).
Qed.

(** ** Settings copied by the constructor *)

(** X2: the four numeric settings are fixed by the constructor and never
    written again; an unset or zero option is replaced by its default (5
    attempts, 1000 and 30000 ms, 100 entries), so in every state the attempt
    limit and the queue capacity are at least 1 and both delays are
    non-zero. *)
Theorem settings_are_fixed_and_never_zero cfg net s :
  reachable cfg net s ->
  config (this s) = cfg /\
  maxReconnectAttempts (this s) = orNat (cfg_maxReconnectAttempts cfg) 5 /\
  reconnectDelay (this s) = orZ (cfg_reconnectDelay cfg) 1000 /\
  maxReconnectDelay (this s) = orZ (cfg_maxReconnectDelay cfg) 30000 /\
  maxQueueSize (this s) = orNat (cfg_maxQueueSize cfg) 100 /\
  (0 < maxReconnectAttempts (this s))%nat /\
  (0 < maxQueueSize (this s))%nat /\
  reconnectDelay (this s) <> 0 /\
  maxReconnectDelay (this s) <> 0.
Proof.
  intros Hr. pose proof (reachable_settings _ _ _ Hr) as E.
  unfold settings in E. cbn in E.
  injection E as E1 E2 E3 E4 E5.
  assert (HZ : forall x d, d <> 0 -> orZ x d <> 0).
  { intros [v|] d Hd; cbn; [|exact Hd].
    destruct (Z.eqb_spec v 0); assumption. }
  rewrite E1, E2, E3, E4, E5.
  repeat split; try (apply orNat_pos; lia); apply HZ; lia.
Qed.

(** ** Stopping timers *)

(** X3: stopHeartbeat returns the state unchanged when nothing is armed, and
    calling it twice is the same as calling it once.  In every reachable
    state pingTimeout is null, so it issues at most the one clearInterval;
    afterwards no heartbeat timer is pending while every other pending timer
    is still pending. *)
Theorem stopHeartbeat_stops_only_the_heartbeat :
  (forall s, pingInterval (this s) = None -> pingTimeout (this s) = None ->
             stopHeartbeat s = s) /\
  (forall s, stopHeartbeat (stopHeartbeat s) = stopHeartbeat s) /\
  (forall cfg net s,
     reachable cfg net s ->
     pingTimeout (this s) = None /\
     trace (env (stopHeartbeat s)) = trace (env s) ++ clears (pingInterval (this s)) /\
     (forall tm, In tm (timers (env (stopHeartbeat s))) <->
                 In tm (timers (env s)) /\ tkind tm <> THeartbeat)).
Proof.
  split; [|split].
  - intros s Hi Ht. unfold stopHeartbeat. rewrite Hi, Ht. reflexivity.
  - intros s. rewrite (stopHeartbeat_eq (stopHeartbeat s)).
    rewrite stopHeartbeat_eq. cbn. rewrite !app_nil_r. reflexivity.
  - intros cfg net s Hr.
    destruct (reachable_Inv _ _ _ Hr) as [_ _ _ Hp _ _ _ Hpt].
    split; [exact Hpt|]. rewrite stopHeartbeat_eq. cbn. rewrite Hpt. cbn.
    split; [rewrite app_nil_r; reflexivity|].
    intros tm. split.
    + intros Hin. apply In_remove_opt in Hin. destruct Hin as [Hin Hne].
      split; [exact Hin|]. intros Hk. apply Hne. apply (Hp tm Hin). exact Hk.
    + intros [Hin Hk]. apply In_remove_opt_intro; [exact Hin|].
      intros E. apply Hk. apply (Hp tm Hin). exact E.
Qed.

(** X4: clearReconnectTimer returns the state unchanged when no timer is
    remembered, and calling it twice is the same as calling it once.  In
    every reachable state it leaves no reconnect timer pending and every
    other pending timer still pending. *)
Theorem clearReconnectTimer_clears_only_the_reconnect :
  (forall s, reconnectTimer (this s) = None -> clearReconnectTimer s = s) /\
  (forall s, clearReconnectTimer (clearReconnectTimer s) = clearReconnectTimer s) /\
  (forall cfg net s,
     reachable cfg net s ->
     forall tm, In tm (timers (env (clearReconnectTimer s))) <->
                In tm (timers (env s)) /\ tkind tm <> TReconnect).
Proof.
  split; [|split].
  - intros s Hr. unfold clearReconnectTimer. rewrite Hr. reflexivity.
  - intros s. rewrite (clearReconnectTimer_eq (clearReconnectTimer s)).
    rewrite clearReconnectTimer_eq. cbn. rewrite !app_nil_r. reflexivity.
  - intros cfg net s Hr tm.
    pose proof (inv_reconnect s (reachable_Inv _ _ _ Hr)) as Ho.
    rewrite clearReconnectTimer_eq. cbn. split.
    + intros Hin. apply In_remove_opt in Hin. destruct Hin as [Hin Hne].
      split; [exact Hin|]. intros Hk. apply Hne. apply (Ho tm Hin). exact Hk.
    + intros [Hin Hk]. apply In_remove_opt_intro; [exact Hin|].
      intros E. apply Hk. apply (Ho tm Hin). exact E.
Qed.

(** ** The close event after an explicit close *)

(** X5: when the close handler runs with shouldReconnect false (after
    close()), it ends CLOSED with no handle, arms no timer and schedules
    nothing, and leaves the attempt counter alone; it emits reconnect-failed
    exactly when the counter is at or above maxReconnectAttempts, and
    nothing beyond the close notification otherwise. *)
Theorem close_event_without_reconnect code reason s :
  shouldReconnect (this s) = false ->
  let s' := onclose code reason s in
  _readyState (this s') = CLOSED /\
  socket (this s') = None /\
  reconnectAttempts (this s') = reconnectAttempts (this s) /\
  (forall tm, In tm (timers (env s')) -> In tm (timers (env s))) /\
  filter is_schedule (trace (env s')) = filter is_schedule (trace (env s)) /\
  filter is_reconnect_failed (trace (env s')) =
    filter is_reconnect_failed (trace (env s))
    ++ (if (maxReconnectAttempts (this s) <=? reconnectAttempts (this s))%nat
        then [Emit (EvReconnectFailed (reconnectAttempts (this s)))]
        else []).
Proof.
  intros Hsr s'. subst s'. rewrite onclose_eq. cbn zeta. rewrite Hsr.
  cbn [andb]. unfold closed_base, emit, log, upd_env, upd_this.
  destruct (_ <=? _)%nat; quiet_finish; repeat split; try reflexivity;
    intros tm Hin; in_split; exact Hin.
Qed.

(** ** The reconnect timer and a handle obtained meanwhile *)

(** X6: when the reconnect timer fires while a handle is already held (the
    application called connect() itself in the meantime) the callback does
    nothing: no socket is created and no field changes.  When no handle is
    held it creates one and the state becomes CONNECTING, with the attempt
    counter and the queue as they were. *)
Theorem reconnect_timer_defers_to_held_handle s fuel t tm :
  find_timer t (timers (env s)) = Some tm ->
  tkind tm = TReconnect ->
  (forall h, socket (this s) = Some h ->
     handle fuel (TimerFires t) s = Returned (expire t s) /\
     this (expire t s) = this s /\
     trace (env (expire t s)) = trace (env s) /\
     sockets (env (expire t s)) = sockets (env s)) /\
  (socket (this s) = None ->
     exists s',
       handle fuel (TimerFires t) s = Returned s' /\
       socket (this s') = Some (nextHandle (env s)) /\
       _readyState (this s') = CONNECTING /\
       shouldReconnect (this s') = true /\
       reconnectAttempts (this s') = reconnectAttempts (this s) /\
       messageQueue (this s') = messageQueue (this s) /\
       filter is_connect (trace (env s')) =
         filter is_connect (trace (env s)) ++ [SockNew (nextHandle (env s))]).
Proof.
  intros Hf Hk. split.
  - intros h Hs. cbn [handle]. rewrite Hf, Hk.
    rewrite (connect_noop (expire t s) h Hs). repeat split.
  - intros Hs. cbn [handle]. rewrite Hf, Hk.
    eexists. split; [reflexivity|].
    rewrite (connect_eq (expire t s) Hs).
    destruct (truthy (cfg_connectTimeoutMs _)); quiet_finish; repeat split.
Qed.

(** ** Growth of the back-off delay *)

Lemma reconnecting_events_app tr1 tr2 :
  reconnecting_events (tr1 ++ tr2) = reconnecting_events tr1 ++ reconnecting_events tr2.
Proof.
  induction tr1 as [|a tr1 IH]; [reflexivity|].
  destruct a as [e| | | | | |]; cbn; try exact IH.
  destruct e; cbn; rewrite ?IH; reflexivity.
Qed.

Lemma reconnecting_events_clears o : reconnecting_events (clears o) = [].
Proof. destruct o; reflexivity. Qed.

(** X7: with a non-negative reconnectDelay the delay never shrinks from one
    scheduleReconnect call to the next, never exceeds maxReconnectDelay, and
    once it has reached maxReconnectDelay it stays there.  Two consecutive
    calls notify attempts n+1 and n+2 with these two delays. *)
Theorem backoff_never_shrinks s :
  0 <= reconnectDelay (this s) ->
  let s1 := scheduleReconnect s in
  let n := reconnectAttempts (this s) in
  next_delay s <= next_delay s1 /\
  next_delay s1 <= maxReconnectDelay (this s) /\
  (next_delay s = maxReconnectDelay (this s) ->
   next_delay s1 = maxReconnectDelay (this s)) /\
  reconnecting_events (trace (env (scheduleReconnect s1))) =
    reconnecting_events (trace (env s))
    ++ [(S n, next_delay s); (S (S n), next_delay s1)].
Proof.
  intros Hb s1 n. subst s1 n.
  assert (E : next_delay (scheduleReconnect s) =
              Z.min (reconnectDelay (this s)
                       * 2 ^ Z.of_nat (S (reconnectAttempts (this s))))
                    (maxReconnectDelay (this s))).
  { rewrite scheduleReconnect_eq. reflexivity. }
  assert (Hpow : reconnectDelay (this s) * 2 ^ Z.of_nat (reconnectAttempts (this s))
                 <= reconnectDelay (this s)
                      * 2 ^ Z.of_nat (S (reconnectAttempts (this s)))).
  { rewrite Nat2Z.inj_succ, Z.pow_succ_r by lia.
    assert (0 < 2 ^ Z.of_nat (reconnectAttempts (this s)))
      by (apply Z.pow_pos_nonneg; lia).
    nia. }
  split; [|split; [|split]].
  - rewrite E. unfold next_delay. lia.
  - rewrite E. lia.
  - rewrite E. unfold next_delay. lia.
  - rewrite (scheduleReconnect_eq (scheduleReconnect s)). cbn zeta.
    fold (next_delay (scheduleReconnect s)).
    rewrite scheduleReconnect_eq. cbn.
    fold (next_delay s).
    rewrite !reconnecting_events_app, !reconnecting_events_clears. cbn.
    rewrite <- app_assoc. reflexivity.
Qed.

(** ** The statistics snapshot *)

(** X8: isHealthy is false while no message or heartbeat start has set
    lastPongTime.  Right after a message event it is true, and after dt more
    milliseconds without traffic it is true exactly when dt < 60000; the one
    exception is a message stamped at clock value 0, which isHealthy treats
    like no timestamp.  In every reachable state the queuedMessages field is
    at most maxQueueSize. *)
Theorem isHealthy_follows_last_message :
  (forall s, lastPongTime (this s) = None -> isHealthy s = false) /\
  (forall s fuel k data dt,
     now (env s) <> 0 ->
     exists s1 s2,
       handle fuel (SocketMessage k data) s = Returned s1 /\
       handle fuel (Elapse dt) s1 = Returned s2 /\
       isHealthy s1 = true /\
       (isHealthy s2 = true <-> Z.of_N dt < 60000)) /\
  (forall s data, now (env s) = 0 -> isHealthy (onmessage data s) = false) /\
  (forall cfg net s,
     reachable cfg net s ->
     let '(_, _, queued, _, _) := getConnectionStats s in
     (queued <= maxQueueSize (this s))%nat).
Proof.
  split; [|split; [|split]].
  - intros s Hl. unfold isHealthy, getConnectionStats. cbn. rewrite Hl. reflexivity.
  - intros s fuel k data dt Hn. eexists _, _.
    split; [reflexivity|]. split; [reflexivity|].
    unfold isHealthy, getConnectionStats, onmessage, emit, log, upd_env, upd_this.
    cbn. destruct (Z.eqb_spec (now (env s)) 0) as [E|_]; [contradiction|].
    split.
    + apply Z.ltb_lt. lia.
    + rewrite Z.ltb_lt. lia.
  - intros s data Hn.
    unfold isHealthy, getConnectionStats, onmessage, emit, log, upd_env, upd_this.
    cbn. rewrite Hn. reflexivity.
  - intros cfg net s Hr. cbn. apply (inv_queue s (reachable_Inv _ _ _ Hr)).
Qed.

(** ** Inbound traffic and the heartbeat timeout *)

(** X9: in state OPEN with a handle, a message event followed by dt
    milliseconds of silence and then a heartbeat tick: the tick does nothing
    when dt is within the heartbeat timeout, and emits heartbeat-timeout and
    closes the handle when dt exceeds it.  The time that counts is the time
    since the last message, whatever the timestamp was before. *)
Theorem message_postpones_heartbeat_timeout s fuel k data dt t tm h :
  find_timer t (timers (env s)) = Some tm ->
  tkind tm = THeartbeat ->
  _readyState (this s) = OPEN ->
  socket (this s) = Some h ->
  let timeout := orZ (cfg_heartbeatTimeout (config (this s))) 30000 in
  exists s1 s2 s3,
    handle fuel (SocketMessage k data) s = Returned s1 /\
    handle fuel (Elapse dt) s1 = Returned s2 /\
    handle fuel (TimerFires t) s2 = Returned s3 /\
    (Z.of_N dt <= timeout -> s3 = s2) /\
    (Z.of_N dt > timeout ->
     trace (env s3) = trace (env s2) ++ [Emit EvHeartbeatTimeout; SockClose h] /\
     this s3 = this s2).
Proof.
  intros Hf Hk Hs Hh timeout.
  eexists _, _.
  assert (Htick : forall x,
            timers (env x) = timers (env s) ->
            _readyState (this x) = 1 -> socket (this x) = Some h ->
            config (this x) = config (this s) ->
            lastPongTime (this x) = Some (now (env s)) ->
            now (env x) = now (env s) + Z.of_N dt ->
            exists s3,
              handle fuel (TimerFires t) x = Returned s3 /\
              (Z.of_N dt <= timeout -> s3 = x) /\
              (Z.of_N dt > timeout ->
               trace (env s3) = trace (env x) ++ [Emit EvHeartbeatTimeout; SockClose h] /\
               this s3 = this x)).
  { intros x Ht Hx Hhx Hc Hl Hn. cbn [handle]. rewrite Ht, Hf, Hk.
    unfold heartbeatTick. rewrite Hx, Hl, Hn, Hc. cbn [Z.eqb Pos.eqb].
    replace (now (env s) + Z.of_N dt - now (env s)) with (Z.of_N dt) by lia.
    fold timeout.
    destruct (Z.gtb_spec (Z.of_N dt) timeout) as [Hgt|Hle].
    - cbn. rewrite Hhx. eexists. split; [reflexivity|]. split; [lia|].
      intros _. unfold emit, log, upd_env. cbn. rewrite <- app_assoc.
      split; reflexivity.
    - eexists. split; [reflexivity|]. split; [reflexivity|lia]. }
  destruct (Htick (upd_env (fun r => set_now (now r + Z.of_N dt) r) (onmessage data s)))
    as (s3 & H1 & H2 & H3); try reflexivity; try assumption.
  exists s3. split; [reflexivity|]. split; [reflexivity|].
  split; [exact H1|]. split; [exact H2|exact H3].
Qed.

(** ** The queue when queueing is switched off *)

Lemma send_queue_off str cb s :
  cfg_queueMessages (config (this s)) = false ->
  messageQueue (this (snd (send str cb s))) = messageQueue (this s).
Proof.
  intros Hq. unfold send, invoke, log, upd_env, upd_this. rewrite Hq. cbn [andb].
  repeat break_match; reflexivity.
Qed.

Lemma flushMessageQueue_nil fuel s :
  messageQueue (this s) = [] -> flushMessageQueue fuel s = Some s.
Proof. intros Hq. destruct fuel; cbn; rewrite Hq; reflexivity. Qed.

(* Every input other than a send or an open event leaves the queue alone. *)
Lemma step_queue_frame fuel i s s' :
  step fuel i s = Some s' ->
  match i with Send _ _ | SocketOpen _ => True | _ => False end \/
  messageQueue (this s') = messageQueue (this s).
Proof.
  intros H. destruct i; try (left; exact I); right.
  - injection H as <-. destruct (socket (this s)) as [h|] eqn:Hs.
    + rewrite (connect_noop s h Hs). reflexivity.
    + rewrite (connect_eq s Hs).
      destruct (truthy (cfg_connectTimeoutMs (config (this s)))); reflexivity.
  - injection H as <-. destruct (socket (this s)) as [h|] eqn:Hs.
    + rewrite (close_eq s h Hs). reflexivity.
    + rewrite (close_none s Hs). reflexivity.
  - injection H as <-. reflexivity.
  - unfold step in H. destruct (enabled _ s); [|discriminate].
    injection H as <-. reflexivity.
  - unfold step in H. destruct (enabled _ s); [|discriminate].
    injection H as <-. reflexivity.
  - unfold step in H. destruct (enabled _ s); [|discriminate].
    injection H as <-. rewrite onclose_eq. cbn zeta.
    destruct (_ && _); [rewrite scheduleReconnect_eq; reflexivity|].
    destruct (_ <=? _)%nat; reflexivity.
  - apply step_TimerFires in H. destruct H as (tm & Hin & Ht & H).
    destruct (tkind tm).
    + subst s'. destruct (_ =? 0); [|reflexivity].
      destruct (socket (this (expire t s))) as [h|] eqn:Hs.
      * rewrite (close_eq _ h Hs). reflexivity.
      * rewrite (close_none _ Hs). reflexivity.
    + subst s'. destruct (socket (this (expire t s))) as [h|] eqn:Hs.
      * rewrite (connect_noop _ h Hs). reflexivity.
      * rewrite (connect_eq _ Hs).
        destruct (truthy (cfg_connectTimeoutMs _)); reflexivity.
    + destruct H as [-> | [[_ ->] | (h & _ & _ & ->)]]; reflexivity.
  - injection H as <-. reflexivity.
Qed.

(** X10: with queueMessages off the queue is empty in every reachable state:
    no send ever stores an entry, so an open event has nothing to drain. *)
Theorem queue_stays_empty_without_queueing cfg net s :
  reachable cfg net s ->
  cfg_queueMessages cfg = false ->
  messageQueue (this s) = [].
Proof.
  intros Hr Hoff. induction Hr as [|s fuel i s' Hr IH Hstep]; [reflexivity|].
  assert (Hc : cfg_queueMessages (config (this s)) = false).
  { pose proof (reachable_settings _ _ _ Hr) as E. unfold settings in E.
    cbn in E. injection E as -> _ _ _ _. exact Hoff. }
  destruct (step_queue_frame _ _ _ _ Hstep) as [Hi | E]; [|congruence].
  destruct i; try contradiction.
  - injection Hstep as <-. rewrite (send_queue_off _ _ _ Hc). exact IH.
  - apply step_SocketOpen in Hstep. destruct Hstep as (s0 & Ho & Hs0).
    assert (Hq0 : messageQueue (this s0) = []).
    { destruct Hs0 as [-> | [t ->]]; exact IH. }
    unfold onopen in Ho.
    rewrite flushMessageQueue_nil in Ho by exact Hq0.
    injection Ho as <-. rewrite startHeartbeat_eq. cbn.
    destruct (truthy (cfg_heartbeatInterval _)); exact Hq0.
Qed.

(** ** Messages queued while disconnected *)

Lemma send_all_enqueues : forall l s,
  socket (this s) = None \/ _readyState (this s) <> OPEN ->
  cfg_queueMessages (config (this s)) = true ->
  (List.length (messageQueue (this s)) + List.length l <= maxQueueSize (this s))%nat ->
  send_all l s =
  (repeat true (List.length l),
   upd_this (fun c => set_messageQueue (messageQueue c ++ l) c) s).
Proof.
  induction l as [|[str cb] l IH]; intros s Hno Hq Hlen.
  - cbn. unfold upd_this. destruct_state s. rewrite app_nil_r. reflexivity.
  - cbn [send_all].
    assert (E : send str cb s =
                (true, upd_this (fun c => set_messageQueue (messageQueue c ++ [(str, cb)]) c) s)).
    { unfold send. rewrite Hq.
      assert (Hlt : (List.length (messageQueue (this s)) <? maxQueueSize (this s))%nat = true)
        by (apply Nat.ltb_lt; cbn in Hlen; lia).
      rewrite Hlt. cbn [andb].
      destruct (socket (this s)) as [h|]; [|reflexivity].
      destruct (_readyState (this s) =? 1) eqn:E1; [|reflexivity].
      apply Z.eqb_eq in E1. destruct Hno as [Hno | Hno]; [discriminate|].
      exfalso. apply Hno. exact E1. }
    rewrite E. rewrite IH.
    + cbn. unfold upd_this. cbn. rewrite <- app_assoc. reflexivity.
    + exact Hno.
    + exact Hq.
    + cbn. rewrite length_app. cbn in *. lia.
Qed.

Lemma onopen_with_handle fuel h x :
  socket (this x) = Some h ->
  (List.length (messageQueue (this x)) <= fuel)%nat ->
  exists s',
    onopen fuel x = Returned s' /\
    _readyState (this s') = OPEN /\
    messageQueue (this s') = [] /\
    sent_payloads (trace (env s')) =
      sent_payloads (trace (env x)) ++ map fst (messageQueue (this x)).
Proof.
  intros Hh Hf. unfold onopen.
  rewrite (flushMessageQueue_when_open h (messageQueue (this x)))
    by (cbn; first [assumption | reflexivity]).
  eexists. split; [reflexivity|].
  match goal with
  | |- context [startHeartbeat ?y] =>
      destruct (startHeartbeat_trace y) as (G1 & G2 & (hb & G3 & G4 & _));
      rewrite G1, G2, G3
  end.
  split; [reflexivity|]. split; [reflexivity|].
  unfold emit, log, upd_env, upd_this. cbn.
  rewrite !sent_payloads_app, G4, sent_payloads_drain. cbn.
  rewrite !app_nil_r. reflexivity.
Qed.

(** X11: messages handed to send while the client holds a handle that is not
    yet OPEN, with queueing on and room for all of them, are each accepted
    (send returns true) without anything being sent or any callback being
    called; they are appended to the queue in call order.  When the open
    event then arrives, the handle receives the queued payloads, older
    entries first and these in the order of the send calls, and the queue
    is empty. *)
Theorem queued_sends_are_delivered_in_order s h k l fuel :
  socket (this s) = Some h ->
  _readyState (this s) <> OPEN ->
  cfg_queueMessages (config (this s)) = true ->
  (List.length (messageQueue (this s)) + List.length l <= maxQueueSize (this s))%nat ->
  (List.length (messageQueue (this s)) + List.length l <= fuel)%nat ->
  let s1 := snd (send_all l s) in
  fst (send_all l s) = repeat true (List.length l) /\
  messageQueue (this s1) = messageQueue (this s) ++ l /\
  trace (env s1) = trace (env s) /\
  exists s',
    handle fuel (SocketOpen k) s1 = Returned s' /\
    messageQueue (this s') = [] /\
    sent_payloads (trace (env s')) =
      sent_payloads (trace (env s)) ++ map fst (messageQueue (this s) ++ l).
Proof.
  intros Hh Hno Hq Hlen Hf s1. subst s1.
  rewrite (send_all_enqueues l s (or_intror Hno) Hq Hlen). cbn [fst snd].
  split; [reflexivity|]. split; [reflexivity|]. split; [reflexivity|].
  assert (Hopen : forall x,
            socket (this x) = Some h ->
            messageQueue (this x) = messageQueue (this s) ++ l ->
            sent_payloads (trace (env x)) = sent_payloads (trace (env s)) ->
            exists s',
              onopen fuel x = Returned s' /\
              messageQueue (this s') = [] /\
              sent_payloads (trace (env s')) =
                sent_payloads (trace (env s)) ++ map fst (messageQueue (this s) ++ l)).
  { intros x Hx Hqx Htx.
    destruct (onopen_with_handle fuel h x Hx) as (s' & H1 & _ & H3 & H4).
    - rewrite Hqx, length_app. exact Hf.
    - exists s'. split; [exact H1|]. split; [exact H3|].
      rewrite H4, Hqx, Htx. reflexivity. }
  cbn [handle].
  destruct (find_socket k _) as [[t|]|]; apply Hopen; try reflexivity; try exact Hh.
  unfold clearTimer, log, upd_env, upd_this. cbn.
  rewrite sent_payloads_app. cbn. rewrite app_nil_r. reflexivity.
Qed.

(** ** An open event while no handle is held *)

(** X12: an open event that arrives while no handle is held, with queueing
    on and a non-empty queue within its bound, never completes: the drain
    loop takes each entry out and send, finding no handle, puts it back at
    the end, so the handler does not return for any number of iterations. *)
Theorem open_without_handle_never_returns s fuel k :
  socket (this s) = None ->
  cfg_queueMessages (config (this s)) = true ->
  messageQueue (this s) <> [] ->
  (List.length (messageQueue (this s)) <= maxQueueSize (this s))%nat ->
  handle fuel (SocketOpen k) s = OutOfFuel.
Proof.
  intros Hh Hq Hne Hlen.
  assert (Hopen : forall x,
            socket (this x) = None -> config (this x) = config (this s) ->
            messageQueue (this x) = messageQueue (this s) ->
            maxQueueSize (this x) = maxQueueSize (this s) ->
            onopen fuel x = OutOfFuel).
  { intros x Hx Hc Hqx Hm. unfold onopen.
    rewrite flushMessageQueue_spins; cbn; try reflexivity; try assumption;
      congruence. }
  cbn [handle].
  destruct (find_socket k _) as [[t|]|]; apply Hopen; try reflexivity; exact Hh.
Qed.

(** ** Bounds on the attempt counter and on what reconnecting reports *)

Lemma lifecycle_no_reconnecting tr :
  filter is_lifecycle tr = [] -> reconnecting_events tr = [].
Proof.
  induction tr as [|a tr IH]; [reflexivity|].
  destruct a as [e| | | | | |]; cbn; try discriminate; try exact IH.
Qed.

Ltac events_finish :=
  cbn; rewrite ?reconnecting_events_app, ?reconnecting_events_clears; cbn;
  rewrite ?app_nil_r.

Lemma connect_attempts_within m D s :
  attempts_within m D s -> attempts_within m D (connect s).
Proof.
  intros [Ha He]. unfold attempts_within.
  destruct (socket (this s)) as [h|] eqn:Hs.
  - rewrite (connect_noop s h Hs). split; assumption.
  - rewrite (connect_eq s Hs).
    destruct (truthy (cfg_connectTimeoutMs (config (this s)))); events_finish;
      split; assumption.
Qed.

Lemma close_attempts_within m D s :
  attempts_within m D s -> attempts_within m D (close s).
Proof.
  intros [Ha He]. unfold attempts_within.
  destruct (socket (this s)) as [h|] eqn:Hs.
  - rewrite (close_eq s h Hs). events_finish. split; assumption.
  - rewrite (close_none s Hs). split; assumption.
Qed.

Lemma step_attempts_within fuel i s s' m D :
  maxReconnectAttempts (this s) = m -> maxReconnectDelay (this s) = D ->
  attempts_within m D s -> step fuel i s = Some s' -> attempts_within m D s'.
Proof.
  intros Hm HD Hw H. pose proof Hw as [Ha He]. destruct i.
  - injection H as <-. apply connect_attempts_within, Hw.
  - injection H as <-. apply close_attempts_within, Hw.
  - injection H as <-.
    destruct (send_shape str cb s) as (q & n & tr & E & Ft & _). rewrite E.
    unfold attempts_within. events_finish.
    rewrite (lifecycle_no_reconnecting tr Ft), app_nil_r. split; assumption.
  - injection H as <-. unfold attempts_within. cbn. split; [lia|exact He].
  - apply step_SocketOpen in H. destruct H as (s0 & Ho & Hs0).
    apply onopen_result in Ho. destruct Ho as (q & n & tr & -> & Ft & _).
    rewrite startHeartbeat_eq. unfold attempts_within.
    destruct Hs0 as [-> | [t ->]];
      destruct (truthy (cfg_heartbeatInterval _)); events_finish;
      rewrite (lifecycle_no_reconnecting tr Ft), ?app_nil_r;
      (split; [lia|exact He]).
  - unfold step in H. destruct (enabled _ s); [|discriminate].
    injection H as <-. unfold attempts_within. events_finish. split; assumption.
  - unfold step in H. destruct (enabled _ s); [|discriminate].
    injection H as <-. unfold attempts_within. events_finish. split; assumption.
  - unfold step in H. destruct (enabled _ s); [|discriminate].
    injection H as <-. rewrite onclose_eq. cbn -[scheduleReconnect closed_base].
    unfold attempts_within.
    destruct (shouldReconnect (this s)
              && (reconnectAttempts (this s) <? maxReconnectAttempts (this s))%nat)
      eqn:Eb.
    + apply andb_true_iff in Eb. destruct Eb as [_ Eb]. apply Nat.ltb_lt in Eb.
      rewrite scheduleReconnect_eq. events_finish. split; [lia|].
      apply Forall_app. split; [exact He|].
      constructor; [|constructor]. cbn. split; [lia|].
      rewrite <- HD. apply Z.le_min_r.
    + destruct (_ <=? _)%nat; events_finish; split; assumption.
  - apply step_TimerFires in H. destruct H as (tm & Hin & Ht & H).
    destruct (tkind tm).
    + subst s'. destruct (_ =? 0).
      * pose proof (close_attempts_within m D (expire t s) Hw) as [Ha' He'].
        unfold attempts_within. events_finish. split; assumption.
      * exact Hw.
    + subst s'. apply (connect_attempts_within m D (expire t s)), Hw.
    + destruct H as [-> | [[_ ->] | (h & _ & _ & ->)]];
        unfold attempts_within; events_finish; split; assumption.
  - injection H as <-. exact Hw.
Qed.

(** X13: in every reachable state the attempt counter is at most
    maxReconnectAttempts, and every reconnecting(n, d) notification emitted
    so far has 1 <= n <= maxReconnectAttempts and d <= maxReconnectDelay. *)
Theorem attempts_stay_within_the_limit cfg net s :
  reachable cfg net s ->
  (reconnectAttempts (this s) <= maxReconnectAttempts (this s))%nat /\
  Forall (fun e : nat * Z =>
            (1 <= fst e <= maxReconnectAttempts (this s))%nat /\
            snd e <= maxReconnectDelay (this s))
         (reconnecting_events (trace (env s))).
Proof.
  intros Hr.
  assert (Hw : attempts_within (orNat (cfg_maxReconnectAttempts cfg) 5)
                 (orZ (cfg_maxReconnectDelay cfg) 30000) s).
  { induction Hr as [|s fuel i s' Hr IH Hstep].
    - split; [cbn; lia|constructor].
    - pose proof (reachable_settings _ _ _ Hr) as E. unfold settings in E.
      cbn in E. injection E as _ E2 _ E4 _.
      exact (step_attempts_within _ _ _ _ _ _ E2 E4 IH Hstep). }
  pose proof (reachable_settings _ _ _ Hr) as E. unfold settings in E.
  cbn in E. injection E as _ E2 _ E4 _. rewrite E2, E4. exact Hw.
Qed.

(** ** The connect timeout of a socket that opened *)

Lemma frame_refl s : frame s s.
Proof. unfold frame. repeat split; auto. Qed.

Lemma frame_trans s1 s2 s3 : frame s1 s2 -> frame s2 s3 -> frame s1 s3.
Proof.
  intros (A1 & A2 & A3) (B1 & B2 & B3). unfold frame. split; [lia|]. split.
  - intros tm Hin. destruct (B2 tm Hin) as [H | H]; [|right; lia].
    destruct (A2 tm H) as [H' | H']; [left; exact H'|right; exact H'].
  - intros h t Hin. destruct (B3 h t Hin) as [H | H]; [|right; lia].
    destruct (A3 h t H) as [H' | H']; [left; exact H'|right; lia].
Qed.

Ltac frame_finish :=
  unfold frame; cbn; split; [lia|]; split;
  [ intros ? ?; in_split; first [left; assumption | right; cbn; lia]
  | let Hsock := fresh "Hsock" in
    intros ? ? Hsock; first [left; exact Hsock | idtac] ].

Lemma clearTimer_frame t s : frame s (clearTimer t s).
Proof. unfold clearTimer, log, upd_env. frame_finish. Qed.

Lemma expire_frame t s : frame s (expire t s).
Proof. unfold expire, upd_env. frame_finish. Qed.

Lemma emit_frame e s : frame s (emit e s).
Proof. unfold emit, log, upd_env. frame_finish. Qed.

Lemma close_frame s : frame s (close s).
Proof.
  destruct (socket (this s)) as [h|] eqn:Hs.
  - rewrite (close_eq s h Hs). frame_finish.
  - rewrite (close_none s Hs). apply frame_refl.
Qed.

Lemma connect_frame s : frame s (connect s).
Proof.
  destruct (socket (this s)) as [h|] eqn:Hs.
  - rewrite (connect_noop s h Hs). apply frame_refl.
  - rewrite (connect_eq s Hs).
    destruct (truthy (cfg_connectTimeoutMs (config (this s)))) as [ms|];
      frame_finish.
    + apply in_map_iff in Hsock. destruct Hsock as ([h1 o1] & Ef & Hin). cbn in Ef.
      destruct (Nat.eqb h1 (nextHandle (env s))).
      * injection Ef as _ <-. right. lia.
      * injection Ef as -> ->. in_split; [left; exact Hin|discriminate].
    + in_split; [left; exact Hsock|discriminate].
Qed.

Lemma onclose_frame code reason s : frame s (onclose code reason s).
Proof.
  rewrite onclose_eq. cbn zeta.
  destruct (_ && _).
  - rewrite scheduleReconnect_eq. frame_finish.
  - destruct (_ <=? _)%nat; unfold closed_base, emit, log, upd_env; frame_finish.
Qed.

Lemma onopen_frame fuel s s' : onopen fuel s = Returned s' -> frame s s'.
Proof.
  intros H. apply onopen_result in H. destruct H as (q & n & tr & -> & _).
  rewrite startHeartbeat_eq. cbn.
  destruct (truthy (cfg_heartbeatInterval (config (this s)))); frame_finish.
Qed.

Lemma step_frame fuel i s s' : step fuel i s = Some s' -> frame s s'.
Proof.
  intros H. destruct i.
  - injection H as <-. apply connect_frame.
  - injection H as <-. apply close_frame.
  - injection H as <-.
    destruct (send_shape str cb s) as (q & n & tr & E & _). rewrite E. frame_finish.
  - injection H as <-. unfold resetReconnectAttempts, upd_this. frame_finish.
  - apply step_SocketOpen in H. destruct H as (s0 & Ho & [-> | [t ->]]).
    + eapply onopen_frame; exact Ho.
    + eapply frame_trans; [apply clearTimer_frame|eapply onopen_frame; exact Ho].
  - unfold step in H. destruct (enabled _ s); [|discriminate].
    injection H as <-. unfold onmessage, emit, log, upd_env, upd_this. frame_finish.
  - unfold step in H. destruct (enabled _ s); [|discriminate].
    injection H as <-. apply emit_frame.
  - unfold step in H. destruct (enabled _ s); [|discriminate].
    injection H as <-. eapply frame_trans; [|apply onclose_frame].
    unfold drop_socket, upd_env. frame_finish.
    apply filter_In in Hsock. left. apply Hsock.
  - apply step_TimerFires in H. destruct H as (tm & Hin & Ht & H).
    destruct (tkind tm).
    + subst s'. destruct (_ =? 0).
      * eapply frame_trans; [apply expire_frame|].
        eapply frame_trans; [apply close_frame|apply emit_frame].
      * apply expire_frame.
    + subst s'. eapply frame_trans; [apply expire_frame|apply connect_frame].
    + destruct H as [-> | [[_ ->] | (h & _ & _ & ->)]].
      * apply frame_refl.
      * apply emit_frame.
      * apply (frame_trans _ (emit EvHeartbeatTimeout s)); [apply emit_frame|].
        unfold log, upd_env. frame_finish.
  - injection H as <-. unfold upd_env. frame_finish.
Qed.

Lemma exec_frame fuel : forall l s s', exec fuel l s = Some s' -> frame s s'.
Proof.
  induction l as [|i l IH]; intros s s' H; cbn in H.
  - injection H as <-. apply frame_refl.
  - destruct (step fuel i s) as [s1|] eqn:Hs; [|discriminate].
    eapply frame_trans; [eapply step_frame; exact Hs|apply IH, H].
Qed.

Lemma reachable_wrappers_below cfg net s : reachable cfg net s -> wrappers_below s.
Proof.
  induction 1 as [|s fuel i s' _ IH Hstep].
  - intros h t [].
  - destruct (step_frame _ _ _ _ Hstep) as (F1 & _ & F3).
    intros h t Hin. destruct (F3 h t Hin) as [H | H]; [|lia].
    apply IH in H. lia.
Qed.

Lemma find_socket_some_In h o l :
  find_socket h l = Some o -> In (h, o) l.
Proof.
  unfold find_socket.
  destruct (find (fun y => Nat.eqb (fst y) h) l) as [[h1 o1]|] eqn:Hf; [|discriminate].
  intros E. injection E as <-. apply find_some in Hf. destruct Hf as [Hin Heq].
  cbn in Heq. apply Nat.eqb_eq in Heq. subst h1. exact Hin.
Qed.

Lemma find_timer_none t l :
  (forall tm, In tm l -> tid tm <> t) -> find_timer t l = None.
Proof.
  intros Hl. unfold find_timer.
  destruct (find (fun x => Nat.eqb (tid x) t) l) as [tm|] eqn:Hf; [|reflexivity].
  apply find_some in Hf. destruct Hf as [Hin Heq]. apply Nat.eqb_eq in Heq.
  exfalso. exact (Hl tm Hin Heq).
Qed.

(** X14: when a socket whose connect() armed a connect-timeout timer
    delivers its open event, the wrapper clears that timer before anything
    else, and the timer can never fire afterwards: in the state the handler
    returns, and in every state reached from it, the timer is not pending. *)
Theorem open_retires_the_connect_timeout cfg net s fuel h t s' :
  reachable cfg net s ->
  find_socket h (sockets (env s)) = Some (Some t) ->
  step fuel (SocketOpen h) s = Some s' ->
  (exists tr, trace (env s') = trace (env s) ++ ClearTimer t :: Emit EvOpen :: tr) /\
  forall fuel' l s2,
    exec fuel' l s' = Some s2 ->
    find_timer t (timers (env s2)) = None /\
    enabled (TimerFires t) s2 = false.
Proof.
  intros Hr Hfind Hstep.
  pose proof (reachable_wrappers_below _ _ _ Hr h t (find_socket_some_In _ _ _ Hfind))
    as Hlt.
  unfold step in Hstep. cbn [enabled handle] in Hstep. rewrite Hfind in Hstep.
  destruct (onopen fuel (clearTimer t s)) as [s1|s1|] eqn:Ho; try discriminate;
    [|exfalso; eapply onopen_never_throws; exact Ho].
  injection Hstep as <-.
  pose proof (onopen_frame _ _ _ Ho) as Fo.
  split.
  - apply onopen_result in Ho. destruct Ho as (q & n & tr & -> & _).
    rewrite startHeartbeat_eq. cbn.
    destruct (truthy (cfg_heartbeatInterval (config (this s))));
      cbn; rewrite <- ?app_assoc; cbn; eexists; reflexivity.
  - intros fuel' l s2 He.
    pose proof (frame_trans _ _ _ Fo (exec_frame _ _ _ _ He)) as (_ & F2 & _).
    assert (Hnone : find_timer t (timers (env s2)) = None).
    { apply find_timer_none. intros tm Hin.
      destruct (F2 tm Hin) as [H | H].
      - unfold clearTimer, log, upd_env in H. cbn in H.
        apply In_remove_timer in H. apply H.
      - unfold clearTimer, log, upd_env in H. cbn in H. lia. }
    split; [exact Hnone|]. cbn [enabled]. rewrite Hnone. reflexivity.
Qed.

(** ** One reconnect timer, one heartbeat interval *)

(** X15: in every reachable state all pending reconnect timers are the one
    remembered in reconnectTimer and all pending heartbeat timers are the one
    remembered in pingInterval, so two reconnects or two heartbeat monitors
    are never pending side by side: scheduleReconnect and startHeartbeat
    each cancel the previous timer before arming a new one. *)
Theorem timers_are_owned_singly cfg net s :
  reachable cfg net s ->
  (forall tm1 tm2,
     In tm1 (timers (env s)) -> In tm2 (timers (env s)) ->
     tkind tm1 = TReconnect -> tkind tm2 = TReconnect ->
     tid tm1 = tid tm2 /\ reconnectTimer (this s) = Some (tid tm1)) /\
  (forall tm1 tm2,
     In tm1 (timers (env s)) -> In tm2 (timers (env s)) ->
     tkind tm1 = THeartbeat -> tkind tm2 = THeartbeat ->
     tid tm1 = tid tm2 /\ pingInterval (this s) = Some (tid tm1)).
Proof.
  intros Hr. destruct (reachable_Inv _ _ _ Hr) as [_ _ Ho Hp _ _ _ _].
  split; intros tm1 tm2 H1 H2 K1 K2.
  - pose proof (proj1 (Ho tm1 H1) K1) as E1.
    pose proof (proj1 (Ho tm2 H2) K2) as E2.
    split; [congruence|exact E1].
  - pose proof (proj1 (Hp tm1 H1) K1) as E1.
    pose proof (proj1 (Hp tm2 H2) K2) as E2.
    split; [congruence|exact E1].
Qed.

(** ** The back-off starts over *)

(** X16: after a successful open, or after resetReconnectAttempts(), the
    next close event with shouldReconnect set schedules attempt number 1
    with the base delay min(reconnectDelay, maxReconnectDelay), whatever the
    attempt counter was before. *)
Theorem backoff_starts_over cfg net s code reason :
  reachable cfg net s ->
  shouldReconnect (this s) = true ->
  let first := (1%nat, Z.min (reconnectDelay (this s)) (maxReconnectDelay (this s))) in
  (forall fuel s1,
     onopen fuel s = Returned s1 ->
     reconnecting_events (trace (env (onclose code reason s1))) =
       reconnecting_events (trace (env s)) ++ [first]) /\
  reconnecting_events (trace (env (onclose code reason (resetReconnectAttempts s)))) =
    reconnecting_events (trace (env s)) ++ [first].
Proof.
  intros Hr Hsr first. subst first.
  assert (Hpos : (0 <? maxReconnectAttempts (this s))%nat = true).
  { apply Nat.ltb_lt.
    pose proof (reachable_settings _ _ _ Hr) as E. unfold settings in E.
    cbn in E. injection E as _ E2 _ _ _. rewrite E2. apply orNat_pos. lia. }
  assert (Hmul : forall b, b * 2 ^ Z.of_nat 0 = b) by (intros b; cbn; lia).
  split.
  - intros fuel s1 Ho. apply onopen_result in Ho.
    destruct Ho as (q & n & tr & -> & Ft & _).
    rewrite startHeartbeat_eq. rewrite onclose_eq.
    destruct (truthy (cfg_heartbeatInterval _));
      cbn -[scheduleReconnect closed_base]; rewrite Hsr, Hpos;
      cbn -[scheduleReconnect closed_base];
      rewrite scheduleReconnect_eq; events_finish;
      rewrite (lifecycle_no_reconnecting tr Ft), Hmul, ?app_nil_r; reflexivity.
  - rewrite onclose_eq. cbn -[scheduleReconnect closed_base].
    rewrite Hsr, Hpos. cbn -[scheduleReconnect closed_base].
    rewrite scheduleReconnect_eq. events_finish. rewrite Hmul. reflexivity.
Qed.

(** ** The heartbeat when no interval is configured *)

Lemma heartbeat_timeouts_clears o : heartbeat_timeouts (clears o) = 0%nat.
Proof. destruct o; reflexivity. Qed.

Lemma lifecycle_no_heartbeat_timeout tr :
  filter is_lifecycle tr = [] -> heartbeat_timeouts tr = 0%nat.
Proof.
  induction tr as [|a tr IH]; [reflexivity|].
  destruct a as [e| | | | | |]; cbn; try discriminate; try exact IH.
Qed.

Ltac beats_finish :=
  cbn; rewrite ?heartbeat_timeouts_app, ?heartbeat_timeouts_clears; cbn;
  rewrite ?Nat.add_0_r.

(** X17: when heartbeatInterval is unset or 0 the heartbeat monitor never
    runs: in every reachable state pingInterval is null, no heartbeat timer
    is pending and heartbeat-timeout has never been emitted. *)
Theorem heartbeat_never_runs_without_interval cfg net s :
  reachable cfg net s ->
  truthy (cfg_heartbeatInterval cfg) = None ->
  pingInterval (this s) = None /\
  (forall tm, In tm (timers (env s)) -> tkind tm <> THeartbeat) /\
  heartbeat_timeouts (trace (env s)) = 0%nat.
Proof.
  intros Hr Hoff. induction Hr as [|s fuel i s' Hr IH Hstep].
  - cbn. repeat split. intros tm [].
  - destruct IH as (Hp & Hn & Hb).
    assert (Hc : truthy (cfg_heartbeatInterval (config (this s))) = None).
    { pose proof (reachable_settings _ _ _ Hr) as E. unfold settings in E.
      cbn in E. injection E as -> _ _ _ _. exact Hoff. }
    assert (Hclose : forall x,
              pingInterval (this x) = None ->
              (forall tm, In tm (timers (env x)) -> tkind tm <> THeartbeat) ->
              heartbeat_timeouts (trace (env x)) = 0%nat ->
              pingInterval (this (close x)) = None /\
              (forall tm, In tm (timers (env (close x))) -> tkind tm <> THeartbeat) /\
              heartbeat_timeouts (trace (env (close x))) = 0%nat).
    { intros x Hx Hnx Hbx. destruct (socket (this x)) as [h|] eqn:Hs.
      - rewrite (close_eq x h Hs). beats_finish.
        split; [reflexivity|]. split; [|exact Hbx].
        intros tm Hin. in_split. apply Hnx, Hin.
      - rewrite (close_none x Hs). repeat split; assumption. }
    assert (Hconn : forall x,
              pingInterval (this x) = None ->
              (forall tm, In tm (timers (env x)) -> tkind tm <> THeartbeat) ->
              heartbeat_timeouts (trace (env x)) = 0%nat ->
              pingInterval (this (connect x)) = None /\
              (forall tm, In tm (timers (env (connect x))) -> tkind tm <> THeartbeat) /\
              heartbeat_timeouts (trace (env (connect x))) = 0%nat).
    { intros x Hx Hnx Hbx. destruct (socket (this x)) as [h|] eqn:Hs.
      - rewrite (connect_noop x h Hs). repeat split; assumption.
      - rewrite (connect_eq x Hs).
        destruct (truthy (cfg_connectTimeoutMs (config (this x)))); beats_finish;
          (split; [exact Hx|]); (split; [|exact Hbx]);
          intros tm Hin; in_split; [apply Hnx, Hin|discriminate|apply Hnx, Hin]. }
    destruct i.
    + injection Hstep as <-. apply Hconn; assumption.
    + injection Hstep as <-. apply Hclose; assumption.
    + injection Hstep as <-.
      destruct (send_shape str cb s) as (q & n & tr & E & Ft & _). rewrite E.
      beats_finish. rewrite (lifecycle_no_heartbeat_timeout tr Ft).
      repeat split; try assumption. lia.
    + injection Hstep as <-. cbn. repeat split; assumption.
    + apply step_SocketOpen in Hstep. destruct Hstep as (s0 & Ho & Hs0).
      apply onopen_result in Ho. destruct Ho as (q & n & tr & -> & Ft & _).
      rewrite startHeartbeat_eq.
      destruct Hs0 as [-> | [t ->]]; cbn; rewrite Hc; beats_finish;
        rewrite (lifecycle_no_heartbeat_timeout tr Ft);
        (split; [exact Hp|]); (split; [|lia]);
        intros tm Hin; in_split; apply Hn, Hin.
    + unfold step in Hstep. destruct (enabled _ s); [|discriminate].
      injection Hstep as <-. unfold onmessage, emit, log, upd_env, upd_this.
      beats_finish. repeat split; try assumption; try lia.
    + unfold step in Hstep. destruct (enabled _ s); [|discriminate].
      injection Hstep as <-. unfold onerror, emit, log, upd_env, upd_this.
      beats_finish. repeat split; try assumption; try lia.
    + unfold step in Hstep. destruct (enabled _ s); [|discriminate].
      injection Hstep as <-. rewrite onclose_eq. cbn -[scheduleReconnect closed_base].
      destruct (_ && _).
      * rewrite scheduleReconnect_eq. beats_finish.
        split; [reflexivity|]. split; [|lia].
        intros tm Hin. in_split; [apply Hn, Hin|discriminate].
      * destruct (_ <=? _)%nat; unfold closed_base, emit, log, upd_env, upd_this;
          beats_finish; (split; [reflexivity|]); (split; [|lia]);
          intros tm Hin; in_split; apply Hn, Hin.
    + apply step_TimerFires in Hstep. destruct Hstep as (tm & Hin & Ht & H).
      pose proof (Hn tm Hin) as Hk.
      destruct (tkind tm); [| |congruence].
      * subst s'.
        assert (He : pingInterval (this (expire t s)) = None /\
                     (forall tm0, In tm0 (timers (env (expire t s))) ->
                                  tkind tm0 <> THeartbeat) /\
                     heartbeat_timeouts (trace (env (expire t s))) = 0%nat).
        { unfold expire, upd_env. cbn. split; [exact Hp|]. split; [|exact Hb].
          intros tm0 Hin0. in_split. apply Hn, Hin0. }
        destruct He as (E1 & E2 & E3).
        destruct (_ =? 0); [|repeat split; assumption].
        destruct (Hclose _ E1 E2 E3) as (C1 & C2 & C3).
        unfold emit, log, upd_env. beats_finish.
        split; [exact C1|]. split; [exact C2|lia].
      * subst s'. apply Hconn.
        -- exact Hp.
        -- unfold expire, upd_env. cbn. intros tm0 Hin0. in_split. apply Hn, Hin0.
        -- exact Hb.
    + injection Hstep as <-. cbn. repeat split; assumption.
Qed.

(** ** A heartbeat tick while no handle is held *)

(** X18: a heartbeat tick that finds the state OPEN, the last message older
    than the heartbeat timeout and no handle held (the state a stale close
    event leaves behind once the newer socket has opened) emits
    heartbeat-timeout and then throws at this.socket.close(); nothing stops
    the interval, so the next tick does the same again. *)
Theorem heartbeat_tick_throws_without_handle s fuel t tm :
  find_timer t (timers (env s)) = Some tm ->
  tkind tm = THeartbeat ->
  _readyState (this s) = OPEN ->
  socket (this s) = None ->
  now (env s) - match lastPongTime (this s) with Some p => p | None => 0 end
    > orZ (cfg_heartbeatTimeout (config (this s))) 30000 ->
  let s1 := emit EvHeartbeatTimeout s in
  handle fuel (TimerFires t) s = Threw s1 /\
  step fuel (TimerFires t) s = Some s1 /\
  handle fuel (TimerFires t) s1 = Threw (emit EvHeartbeatTimeout s1) /\
  this s1 = this s /\
  timers (env s1) = timers (env s).
Proof.
  intros Hf Hk Ho Hs Hlate s1. subst s1.
  assert (Hgt : (now (env s)
                 - match lastPongTime (this s) with Some p => p | None => 0 end
                 >? orZ (cfg_heartbeatTimeout (config (this s))) 30000) = true).
  { apply Z.gtb_lt. lia. }
  assert (H1 : handle fuel (TimerFires t) s = Threw (emit EvHeartbeatTimeout s)).
  { cbn [handle]. rewrite Hf, Hk. unfold heartbeatTick.
    rewrite Ho. cbn [Z.eqb Pos.eqb OPEN]. rewrite Hgt.
    replace (socket (this (emit EvHeartbeatTimeout s))) with (socket (this s))
      by reflexivity.
    rewrite Hs. reflexivity. }
  split; [exact H1|].
  split.
  { unfold step. cbn [enabled]. rewrite Hf. rewrite H1. reflexivity. }
  split; [|split; reflexivity].
  cbn [handle].
  replace (timers (env (emit EvHeartbeatTimeout s))) with (timers (env s))
    by reflexivity.
  rewrite Hf, Hk. unfold heartbeatTick.
  replace (this (emit EvHeartbeatTimeout s)) with (this s) by reflexivity.
  replace (now (env (emit EvHeartbeatTimeout s))) with (now (env s)) by reflexivity.
  rewrite Ho. cbn [Z.eqb Pos.eqb OPEN]. rewrite Hgt.
  replace (socket (this (emit EvHeartbeatTimeout (emit EvHeartbeatTimeout s))))
    with (socket (this s)) by reflexivity.
  rewrite Hs. reflexivity.
Qed.

(** * Instances of the further properties *)

Lemma settings_are_fixed_and_never_zero_witness :
  let s := run [Connect] (constructor defaults net_ok) in
  maxReconnectAttempts (this s) = 5%nat /\ maxReconnectDelay (this s) <> 0.
Proof.
  cbv zeta.
  destruct (settings_are_fixed_and_never_zero defaults net_ok
              (run [Connect] (constructor defaults net_ok)))
    as (_ & H2 & _ & _ & _ & _ & _ & _ & H9).
  - apply (run_reachable defaults net_ok [Connect]). vm_compute. reflexivity.
  - split; [exact H2|exact H9].
Defined.

Lemma stopHeartbeat_stops_only_the_heartbeat_witness :
  let s := run [Connect; SocketOpen 0] (constructor with_heartbeat net_ok) in
  pingTimeout (this s) = None /\
  trace (env (stopHeartbeat s)) = trace (env s) ++ clears (pingInterval (this s)).
Proof.
  cbv zeta.
  destruct (proj2 (proj2 stopHeartbeat_stops_only_the_heartbeat)
              with_heartbeat net_ok
              (run [Connect; SocketOpen 0] (constructor with_heartbeat net_ok)))
    as (H1 & H2 & _).
  - apply (run_reachable with_heartbeat net_ok [Connect; SocketOpen 0]).
    vm_compute. reflexivity.
  - split; [exact H1|exact H2].
Defined.

Lemma clearReconnectTimer_clears_only_the_reconnect_witness :
  let s := run [Connect; SocketClose 0 1006 "lost"%string]
             (constructor with_connect_timeout net_ok) in
  In (mkTimer 1 TConnectTimeout 20000) (timers (env (clearReconnectTimer s))).
Proof.
  cbv zeta.
  apply (proj2 (proj2 (proj2 clearReconnectTimer_clears_only_the_reconnect)
                  with_connect_timeout net_ok _
                  (run_reachable with_connect_timeout net_ok
                     [Connect; SocketClose 0 1006 "lost"%string] _
                     ltac:(vm_compute; reflexivity))
                  (mkTimer 1 TConnectTimeout 20000))).
  split.
  - vm_compute. left. reflexivity.
  - discriminate.
Defined.

Lemma close_event_without_reconnect_witness :
  let s := run [Connect; SocketOpen 0; Close] (constructor defaults net_ok) in
  let s' := onclose 1000 "bye"%string s in
  _readyState (this s') = CLOSED /\
  reconnectAttempts (this s') = reconnectAttempts (this s).
Proof.
  cbv zeta.
  destruct (close_event_without_reconnect 1000 "bye"%string
              (run [Connect; SocketOpen 0; Close] (constructor defaults net_ok)))
    as (H1 & _ & H3 & _).
  - vm_compute. reflexivity.
  - split; [exact H1|exact H3].
Defined.

Lemma reconnect_timer_defers_to_held_handle_witness :
  let s := run [Connect; SocketClose 0 1006 "lost"%string; Connect]
             (constructor defaults net_ok) in
  handle 0 (TimerFires 1) s = Returned (expire 1 s) /\
  this (expire 1 s) = this s.
Proof.
  cbv zeta.
  destruct (proj1 (reconnect_timer_defers_to_held_handle
                     (run [Connect; SocketClose 0 1006 "lost"%string; Connect]
                        (constructor defaults net_ok))
                     0%nat 1%nat (mkTimer 1 TReconnect 1000)
                     ltac:(vm_compute; reflexivity) ltac:(reflexivity))
              1%nat)
    as (H1 & H2 & _).
  - vm_compute. reflexivity.
  - split; [exact H1|exact H2].
Defined.

Lemma backoff_never_shrinks_witness :
  let s := constructor defaults net_ok in
  next_delay s <= next_delay (scheduleReconnect s) /\
  next_delay (scheduleReconnect s) <= maxReconnectDelay (this s).
Proof.
  cbv zeta.
  destruct (backoff_never_shrinks (constructor defaults net_ok))
    as (H1 & H2 & _).
  - vm_compute. discriminate.
  - split; [exact H1|exact H2].
Defined.

Lemma isHealthy_follows_last_message_witness :
  let s := run [Connect; SocketOpen 0; Elapse 5] (constructor defaults net_ok) in
  exists s1 s2,
    handle 0 (SocketMessage 0 "pong"%string) s = Returned s1 /\
    handle 0 (Elapse 61000) s1 = Returned s2 /\
    isHealthy s1 = true /\
    (isHealthy s2 = true <-> Z.of_N 61000 < 60000).
Proof.
  cbv zeta.
  apply (proj1 (proj2 isHealthy_follows_last_message)).
  vm_compute. discriminate.
Defined.

Lemma message_postpones_heartbeat_timeout_witness :
  let s := run [Connect; SocketOpen 0] (constructor with_heartbeat net_ok) in
  exists s1 s2 s3,
    handle 0 (SocketMessage 0 "pong"%string) s = Returned s1 /\
    handle 0 (Elapse 40000) s1 = Returned s2 /\
    handle 0 (TimerFires 1) s2 = Returned s3 /\
    (Z.of_N 40000 <= orZ (cfg_heartbeatTimeout (config (this s))) 30000 -> s3 = s2) /\
    (Z.of_N 40000 > orZ (cfg_heartbeatTimeout (config (this s))) 30000 ->
     trace (env s3) = trace (env s2) ++ [Emit EvHeartbeatTimeout; SockClose 0] /\
     this s3 = this s2).
Proof.
  cbv zeta.
  apply (message_postpones_heartbeat_timeout
           (run [Connect; SocketOpen 0] (constructor with_heartbeat net_ok))
           0%nat 0%nat "pong"%string 40000%N 1%nat (mkTimer 1 THeartbeat 1000) 0%nat).
  - vm_compute. reflexivity.
  - reflexivity.
  - vm_compute. reflexivity.
  - vm_compute. reflexivity.
Defined.

Lemma queue_stays_empty_without_queueing_witness :
  messageQueue (this (run [Send "a"%string None; Connect; Send "b"%string None]
                        (constructor defaults net_ok))) = [].
Proof.
  apply (queue_stays_empty_without_queueing defaults net_ok).
  - apply (run_reachable defaults net_ok
             [Send "a"%string None; Connect; Send "b"%string None]).
    vm_compute. reflexivity.
  - reflexivity.
Defined.

Lemma queued_sends_are_delivered_in_order_witness :
  let s := connect (constructor queueing net_ok) in
  let l := [("a"%string, Some 1%nat); ("b"%string, None)] in
  fst (send_all l s) = repeat true (List.length l) /\
  exists s',
    handle 2 (SocketOpen 0) (snd (send_all l s)) = Returned s' /\
    messageQueue (this s') = [] /\
    sent_payloads (trace (env s')) =
      sent_payloads (trace (env s)) ++ map fst (messageQueue (this s) ++ l).
Proof.
  cbv zeta.
  destruct (queued_sends_are_delivered_in_order
              (connect (constructor queueing net_ok)) 0%nat 0%nat
              [("a"%string, Some 1%nat); ("b"%string, None)] 2%nat)
    as (H1 & _ & _ & H4).
  - vm_compute. reflexivity.
  - vm_compute. discriminate.
  - vm_compute. reflexivity.
  - vm_compute. lia.
  - vm_compute. lia.
  - split; [exact H1|exact H4].
Defined.

Lemma open_without_handle_never_returns_witness :
  handle 50 (SocketOpen 1)
    (run [Connect; Close; Connect; SocketClose 0 1000 "lost"%string;
          Send "a"%string None]
       (constructor queueing net_ok)) = OutOfFuel.
Proof.
  apply open_without_handle_never_returns.
  - vm_compute. reflexivity.
  - vm_compute. reflexivity.
  - vm_compute. discriminate.
  - vm_compute. lia.
Defined.

Lemma attempts_stay_within_the_limit_witness :
  let s := run [Connect; SocketClose 0 1006 "lost"%string; TimerFires 1;
                SocketClose 1 1006 "lost"%string]
             (constructor defaults net_ok) in
  (reconnectAttempts (this s) <= maxReconnectAttempts (this s))%nat.
Proof.
  cbv zeta.
  apply (attempts_stay_within_the_limit defaults net_ok).
  apply (run_reachable defaults net_ok
           [Connect; SocketClose 0 1006 "lost"%string; TimerFires 1;
            SocketClose 1 1006 "lost"%string]).
  vm_compute. reflexivity.
Defined.

Lemma open_retires_the_connect_timeout_witness :
  let s' := run [Connect; SocketOpen 0] (constructor with_connect_timeout net_ok) in
  enabled (TimerFires 1) (run [Elapse 30000; Close; Connect] s') = false.
Proof.
  cbv zeta.
  destruct (open_retires_the_connect_timeout with_connect_timeout net_ok
              (connect (constructor with_connect_timeout net_ok))
              0%nat 0%nat 1%nat
              (run [Connect; SocketOpen 0] (constructor with_connect_timeout net_ok)))
    as (_ & H).
  - apply (run_reachable with_connect_timeout net_ok [Connect]).
    vm_compute. reflexivity.
  - vm_compute. reflexivity.
  - vm_compute. reflexivity.
  - apply (H 0%nat [Elapse 30000; Close; Connect]). vm_compute. reflexivity.
Defined.

Lemma timers_are_owned_singly_witness :
  let s := run [Connect; SocketClose 0 1006 "lost"%string]
             (constructor defaults net_ok) in
  reconnectTimer (this s) = Some 1%nat.
Proof.
  cbv zeta.
  apply (proj1 (timers_are_owned_singly defaults net_ok _
                  (run_reachable defaults net_ok
                     [Connect; SocketClose 0 1006 "lost"%string] _
                     ltac:(vm_compute; reflexivity)))
           (mkTimer 1 TReconnect 1000) (mkTimer 1 TReconnect 1000)).
  - vm_compute. left. reflexivity.
  - vm_compute. left. reflexivity.
  - reflexivity.
  - reflexivity.
Defined.

Lemma backoff_starts_over_witness :
  let s := run [Connect; SocketClose 0 1006 "lost"%string; TimerFires 1]
             (constructor defaults net_ok) in
  reconnecting_events
    (trace (env (onclose 1006 "lost"%string (resetReconnectAttempts s)))) =
  reconnecting_events (trace (env s))
  ++ [(1%nat, Z.min (reconnectDelay (this s)) (maxReconnectDelay (this s)))].
Proof.
  cbv zeta.
  apply (backoff_starts_over defaults net_ok).
  - apply (run_reachable defaults net_ok
             [Connect; SocketClose 0 1006 "lost"%string; TimerFires 1]).
    vm_compute. reflexivity.
  - vm_compute. reflexivity.
Defined.

Lemma heartbeat_never_runs_without_interval_witness :
  let s := run [Connect; SocketOpen 0; Elapse 90000] (constructor defaults net_ok) in
  pingInterval (this s) = None /\ heartbeat_timeouts (trace (env s)) = 0%nat.
Proof.
  cbv zeta.
  destruct (heartbeat_never_runs_without_interval defaults net_ok
              (run [Connect; SocketOpen 0; Elapse 90000] (constructor defaults net_ok)))
    as (H1 & _ & H3).
  - apply (run_reachable defaults net_ok [Connect; SocketOpen 0; Elapse 90000]).
    vm_compute. reflexivity.
  - reflexivity.
  - split; [exact H1|exact H3].
Defined.

Lemma heartbeat_tick_throws_without_handle_witness :
  let s := run [Connect; Close; Connect; SocketClose 0 1000 "lost"%string;
                SocketOpen 1; Elapse 40000]
             (constructor with_heartbeat net_ok) in
  handle 0 (TimerFires 2) s = Threw (emit EvHeartbeatTimeout s).
Proof.
  cbv zeta.
  apply (heartbeat_tick_throws_without_handle
           (run [Connect; Close; Connect; SocketClose 0 1000 "lost"%string;
                 SocketOpen 1; Elapse 40000]
              (constructor with_heartbeat net_ok))
           0%nat 2%nat (mkTimer 2 THeartbeat 1000)).
  - vm_compute. reflexivity.
  - reflexivity.
  - vm_compute. reflexivity.
  - vm_compute. reflexivity.
  - vm_compute. reflexivity.
Defined.
